(** * REGO600 / REGO635 MQTT bridge: frame codec, register access and
      command dispatch of [rego600_MQTT.py], embedded in Rocq.

    Conventions of the embedding.
    - A Python [int] is a [Z]; [&], [|], [^], [<<] and [>>] are [Z.land],
      [Z.lor], [Z.lxor], [Z.shiftl] and [Z.shiftr] (both sides use the
      infinite two's complement reading of negative numbers).
    - A [bytes] value and a list of ints are both [list Z]; the conversion
      [bytes(packet)] is [Py.bytes], which raises as Python does when an
      item is outside [range(256)].
    - A Python [str] is a [string] holding the UTF-8 bytes of the text, so
      a literal is what the source file has between its quotes.  [Py.chars]
      gives the characters of a text, each with its one to four bytes;
      [chr], [isspace] and [strip] work on characters, not bytes.
    - A Python [float] is a binary64 [float] of the kernel; the operations
      round to nearest, ties to even, as Python's do.
    - A Python exception is a value of [exn]; code that can raise returns
      a [result].  Code that talks to the serial port, the logger or the
      MQTT client runs in the state monad [IO] over [World].
    - The port [ser] and the MQTT [client] the source passes around are
      parts of the [World], so the functions do not take them; an MQTT
      message is given by its topic and its payload bytes.  *)

From Stdlib Require Import ZArith QArith List String Ascii Lia Bool HexadecimalString.
From Stdlib Require Import Floats.
From stdpp Require Import base option list strings gmap pretty.

Local Open Scope Z_scope.

(** ** Python values and builtins *)

Module Py.

(** The exceptions the bridge meets.  [UnicodeDecodeError] is a subclass
    of [ValueError]; [KeyboardInterrupt] and [SystemExit] derive from
    [BaseException] only, every other class from [Exception]. *)
Inductive exn : Type :=
| ValueError (msg : string)
| KeyError (key : string)
| IndexError
| UnicodeDecodeError (msg : string)
| OverflowError (msg : string)
| SerialException (msg : string)
| KeyboardInterrupt
| SystemExit.

(** [str(e)], as an f-string prints a caught exception. *)
Definition exn_str (e : exn) : string :=
  match e with
  | ValueError msg => msg
  | KeyError key => "'" +:+ key +:+ "'"
  | IndexError => "index out of range"
  | UnicodeDecodeError msg => msg
  | OverflowError msg => msg
  | SerialException msg => msg
  | KeyboardInterrupt => EmptyString
  | SystemExit => EmptyString
  end.

Inductive result (A : Type) : Type :=
| Ok (a : A)
| Raise (e : exn).
Arguments Ok {A} a.
Arguments Raise {A} e.

Definition rbind {A B : Type} (m : result A) (k : A -> result B) : result B :=
  match m with
  | Ok a => k a
  | Raise e => Raise e
  end.

(** [l[i]] for a non-negative index. *)
Definition getitem {A : Type} (l : list A) (i : nat) : result A :=
  match l !! i with
  | Some x => Ok x
  | None => Raise IndexError
  end.

(** [l[lo:hi]] for non-negative bounds: never raises, clips at the end. *)
Definition slice {A : Type} (lo hi : nat) (l : list A) : list A :=
  take (hi - lo) (drop lo l).

(** [d[key]] on a dict with string keys. *)
Definition dict_getitem {V : Type} (d : gmap string V) (key : string) : result V :=
  match d !! key with
  | Some v => Ok v
  | None => Raise (KeyError key)
  end.

Definition is_byte (b : Z) : bool := (0 <=? b) && (b <? 256).

(** [bytes(packet)] on a list of ints. *)
Definition bytes (packet : list Z) : result (list Z) :=
  if forallb is_byte packet then Ok packet
  else Raise (ValueError "bytes must be in range(0, 256)").

(** Bytes of a text. *)
Definition byte (b : Z) : ascii := ascii_of_N (Z.to_N b).

Definition byte_value (c : ascii) : Z := Z.of_N (N_of_ascii c).

Definition text_of_bytes (bs : list Z) : string := string_of_list_ascii (map byte bs).

Definition bytes_of_text (s : string) : list Z := map byte_value (list_ascii_of_string s).

(** [chr(code)]: the text of one character, in UTF-8.  (A surrogate code
    gets the three bytes of the same bit layout.) *)
Definition chr (code : Z) : result string :=
  if (code <? 0) || (0x110000 <=? code)
  then Raise (ValueError "chr() arg not in range(0x110000)")
  else if code <? 0x80 then Ok (text_of_bytes [code])
  else if code <? 0x800 then
    Ok (text_of_bytes [Z.lor 0xC0 (Z.shiftr code 6);
                       Z.lor 0x80 (Z.land code 0x3F)])
  else if code <? 0x10000 then
    Ok (text_of_bytes [Z.lor 0xE0 (Z.shiftr code 12);
                       Z.lor 0x80 (Z.land (Z.shiftr code 6) 0x3F);
                       Z.lor 0x80 (Z.land code 0x3F)])
  else
    Ok (text_of_bytes [Z.lor 0xF0 (Z.shiftr code 18);
                       Z.lor 0x80 (Z.land (Z.shiftr code 12) 0x3F);
                       Z.lor 0x80 (Z.land (Z.shiftr code 6) 0x3F);
                       Z.lor 0x80 (Z.land code 0x3F)]).

(** The code of a character, from its bytes. *)
Definition code_point (c : string) : Z :=
  match bytes_of_text c with
  | [b0] => b0
  | [b0; b1] => Z.lor (Z.shiftl (Z.land b0 0x1F) 6) (Z.land b1 0x3F)
  | [b0; b1; b2] =>
      Z.lor (Z.lor (Z.shiftl (Z.land b0 0x0F) 12) (Z.shiftl (Z.land b1 0x3F) 6))
            (Z.land b2 0x3F)
  | [b0; b1; b2; b3] =>
      Z.lor (Z.lor (Z.lor (Z.shiftl (Z.land b0 0x07) 18) (Z.shiftl (Z.land b1 0x3F) 12))
                   (Z.shiftl (Z.land b2 0x3F) 6))
            (Z.land b3 0x3F)
  | _ => 0
  end.

(** A byte 10xxxxxx continues the character begun before it. *)
Definition continuation (s : string) : bool :=
  match s with
  | String b _ => (0x80 <=? byte_value b) && (byte_value b <=? 0xBF)
  | EmptyString => false
  end.

(** The characters of a text, in order: what iterating over a [str]
    yields. *)
Fixpoint chars (s : string) : list string :=
  match s with
  | EmptyString => []
  | String b rest =>
      match chars rest with
      | c :: cs =>
          if continuation c then String b c :: cs
          else String b EmptyString :: c :: cs
      | [] => [String b EmptyString]
      end
  end.

(** [''.join(pieces)]. *)
Definition join (pieces : list string) : string :=
  fold_right String.append EmptyString pieces.

(** The characters [str.isspace] accepts and [str.strip] removes. *)
Definition whitespace : list Z :=
  [ 0x09; 0x0A; 0x0B; 0x0C; 0x0D; 0x1C; 0x1D; 0x1E; 0x1F; 0x20; 0x85; 0xA0;
    0x1680; 0x2000; 0x2001; 0x2002; 0x2003; 0x2004; 0x2005; 0x2006; 0x2007;
    0x2008; 0x2009; 0x200A; 0x2028; 0x2029; 0x202F; 0x205F; 0x3000 ].

(** [c.isspace()] on one character. *)
Definition isspace (c : string) : bool :=
  existsb (fun code => match chr code with
                       | Ok space => String.eqb c space
                       | Raise _ => false
                       end) whitespace.

Fixpoint lstrip_chars (cs : list string) : list string :=
  match cs with
  | [] => []
  | c :: cs' => if isspace c then lstrip_chars cs' else cs
  end.

Definition rstrip_chars (cs : list string) : list string :=
  rev (lstrip_chars (rev cs)).

(** [s.rstrip()]: whitespace removed at the end only. *)
Definition rstrip (s : string) : string := join (rstrip_chars (chars s)).

(** [s.strip()]: whitespace removed at both ends. *)
Definition strip (s : string) : string :=
  join (rstrip_chars (lstrip_chars (chars s))).

(** [str(n)] and [hex(n)] on an int. *)
Definition str_of_int (n : Z) : string := pretty n.

Definition hex (n : Z) : string :=
  (if n <? 0 then "-0x" else "0x")
  +:+ HexadecimalString.NilZero.string_of_uint (N.to_hex_uint (Z.abs_N n)).

(** [needle in s] on strings. *)
Definition contains (needle s : string) : bool :=
  match String.index 0 needle s with
  | Some _ => true
  | None => false
  end.

End Py.

Import Py.

Notation "x <-! m ; k" := (rbind m (fun x => k))
  (at level 100, m at next level, right associativity).

(** ** Serial communication constants *)

Definition PUMP_ADDRESS : Z := 0x81.
Definition PC_ADDRESS : Z := 0x01.

Definition READ_FRONT_PANEL : Z := 0x00.
Definition WRITE_FRONT_PANEL : Z := 0x01.
Definition READ_SYSTEM_REGISTER : Z := 0x02.
Definition WRITE_SYSTEM_REGISTER : Z := 0x03.
Definition READ_TIMER_REGISTER : Z := 0x04.
Definition WRITE_TIMER_REGISTER : Z := 0x05.
Definition READ_DISPLAY : Z := 0x20.

(** ** Frame codec *)

Definition calculate_checksum (packet : list Z) : Z :=
  fold_left (fun checksum byte => Z.lxor checksum byte) (slice 2 8 packet) 0.

Definition encode_register (reg_addr : Z) : list Z :=
  [ Z.shiftr (Z.land reg_addr 0xC000) 14;
    Z.shiftr (Z.land reg_addr 0x3F80) 7;
    Z.land reg_addr 0x007F ].

Definition build_request (address command register : Z) : result (list Z) :=
  let reg_bytes := encode_register register in
  let value := [0x00; 0x00; 0x00] in
  let packet := [address; command] ++ reg_bytes ++ value in
  let packet := packet ++ [calculate_checksum packet] in
  bytes packet.

Definition decode_rego_response (data : list Z) : result Z :=
  if (length data <? 5)%nat then Raise (ValueError "Response too short")
  else
    d1 <-! getitem data 1;
    d2 <-! getitem data 2;
    d3 <-! getitem data 3;
    let b1 := Z.land d1 0x7F in
    let b2 := Z.land d2 0x7F in
    let b3 := Z.land d3 0x7F in
    let raw_value := Z.lor (Z.lor (Z.shiftl b1 14) (Z.shiftl b2 7)) b3 in
    let raw_value :=
      if Z.land raw_value 0x10000 =? 0 then raw_value else raw_value - 0x20000 in
    Ok raw_value.

(** The character the decoder puts in place of the filler: the literal of
    the source holds the three bytes ef 82 a2, the private-use character
    U+F0A2. *)
Definition private_use_F0A2 : string := text_of_bytes [0xEF; 0x82; 0xA2].

(** One turn of the loop of [decode_display_response], for index [i]. *)
Definition display_step (data : list Z) (display_text : string) (i : nat)
  : result string :=
  di <-! getitem data i;
  di1 <-! getitem data (i + 1);
  let high_nibble := Z.land di 0x0F in
  let low_nibble := Z.land di1 0x0F in
  let char_code := Z.lor (Z.shiftl high_nibble 4) low_nibble in
  char <-! chr char_code;
  let char := if String.eqb char "ÿ" then private_use_F0A2 else char in
  let char := if String.eqb char "ß" then "°"%string else char in
  Ok (display_text +:+ char).

(** [range(start, stop, 2)] as the list of its [count] indices. *)
Definition range_step2 (start count : nat) : list nat :=
  map (fun k => (start + 2 * k)%nat) (seq 0 count).

Definition decode_display_response (data : list Z) : result string :=
  if negb (length data =? 42)%nat
  then Raise (ValueError "Invalid display response length")
  else
    d0 <-! getitem data 0;
    if negb (d0 =? PC_ADDRESS)
    then Raise (ValueError "Unexpected display response address")
    else
      display_text <-!
        fold_left (fun acc i => text <-! acc; display_step data text i)
                  (range_step2 1 20) (Ok EmptyString);
      Ok (strip display_text).

Definition validate_response_checksum (response : list Z) : result bool :=
  r1 <-! getitem response 1;
  r2 <-! getitem response 2;
  r3 <-! getitem response 3;
  r4 <-! getitem response 4;
  Ok (Z.lxor (Z.lxor r1 r2) r3 =? r4).

(** ** The world the bridge runs in

    The serial port [ser] of the source is the [serial] field of the world:
    the frames written so far, the bytes that reach the port before the read
    timeout expires, and the controller at the other end, which answers each
    frame it receives with some bytes.  A port with a [fault] raises
    [SerialException] on every access.  [time.sleep] has no effect on this
    state and is left out. *)

Record Serial : Type := {
  fault : option string;
  sent : list (list Z);
  inbound : list Z;
  pump : list Z -> list Z;
}.

Inductive level : Type := DEBUG | INFO | WARNING | ERROR.

Inductive payload : Type :=
| PInt (n : Z)
| PStr (s : string).

(** What the bridge does besides serial traffic, oldest first. *)
Inductive event : Type :=
| LockAcquire
| LockRelease
| Log (lvl : level) (msg : string)
| MqttPublish (topic : string) (value : payload) (retain : bool).

Record World : Type := {
  serial : Serial;
  events : list event;
}.

Definition IO (A : Type) : Type := World -> result A * World.

Definition ret {A : Type} (a : A) : IO A := fun w => (Ok a, w).

Definition bind {A B : Type} (m : IO A) (k : A -> IO B) : IO B :=
  fun w =>
    match m w with
    | (Ok a, w') => k a w'
    | (Raise e, w') => (Raise e, w')
    end.

Definition raise {A : Type} (e : exn) : IO A := fun w => (Raise e, w).

Definition lift {A : Type} (r : result A) : IO A := fun w => (r, w).

(** [try: m  except <handles> as e: handler e]. *)
Definition try_except {A : Type} (m : IO A) (handles : exn -> bool)
  (handler : exn -> IO A) : IO A :=
  fun w =>
    match m w with
    | (Ok a, w') => (Ok a, w')
    | (Raise e, w') => if handles e then handler e w' else (Raise e, w')
    end.

Notation "x <- m ;; k" := (bind m (fun x => k))
  (at level 100, m at next level, right associativity).
Notation "m ;; k" := (bind m (fun _ => k))
  (at level 100, right associativity).

Definition emit (e : event) : IO unit :=
  fun w => (Ok tt, {| serial := serial w; events := events w ++ [e] |}).

Definition logging (lvl : level) (msg : string) : IO unit := emit (Log lvl msg).

Definition ser_write (frame : list Z) : IO unit :=
  fun w =>
    let s := serial w in
    match fault s with
    | Some msg => (Raise (SerialException msg), w)
    | None =>
        (Ok tt,
         {| serial := {| fault := None;
                         sent := sent s ++ [frame];
                         inbound := inbound s ++ pump s frame;
                         pump := pump s |};
            events := events w |})
    end.

(** [ser.read(size)]: at most [size] bytes, fewer when the timeout expires. *)
Definition ser_read (size : nat) : IO (list Z) :=
  fun w =>
    let s := serial w in
    match fault s with
    | Some msg => (Raise (SerialException msg), w)
    | None =>
        (Ok (take size (inbound s)),
         {| serial := {| fault := None;
                         sent := sent s;
                         inbound := drop size (inbound s);
                         pump := pump s |};
            events := events w |})
    end.

(** [with serial_lock: body]: the lock is released however the body ends. *)
Definition with_serial_lock {A : Type} (body : IO A) : IO A :=
  emit LockAcquire ;;
  fun w =>
    match body w with
    | (r, w') => (r, {| serial := serial w'; events := events w' ++ [LockRelease] |})
    end.

(** [except ValueError] also handles the subclass [UnicodeDecodeError]. *)
Definition is_ValueError (e : exn) : bool :=
  match e with
  | ValueError _ | UnicodeDecodeError _ => true
  | _ => false
  end.

(** [except Exception] lets [KeyboardInterrupt] and [SystemExit] pass. *)
Definition is_Exception (e : exn) : bool :=
  match e with
  | KeyboardInterrupt | SystemExit => false
  | _ => true
  end.

(** ** Register access layer *)

Definition read_register {A : Type} (reg_addr command : Z) (expected_length : nat)
  (decode_func : list Z -> result A) : IO (option A) :=
  response <- with_serial_lock (
      request <- lift (build_request PUMP_ADDRESS command reg_addr) ;;
      ser_write request ;;
      ser_read expected_length) ;;
  if negb (length response =? expected_length)%nat then
    logging WARNING
      ("Incomplete response for register " +:+ hex reg_addr +:+ ".") ;;
    ret None
  else
    r0 <- lift (getitem response 0) ;;
    if negb (r0 =? PC_ADDRESS) then
      logging WARNING ("Unexpected response address: " +:+ hex r0) ;;
      ret None
    else
      mismatch <- (if (expected_length =? 5)%nat
                   then valid <- lift (validate_response_checksum response) ;;
                        ret (negb valid)
                   else ret false) ;;
      if (mismatch : bool) then
        logging WARNING "Checksum mismatch!" ;;
        ret None
      else
        try_except
          (value <- lift (decode_func response) ;; ret (Some value))
          is_ValueError
          (fun e => logging WARNING ("Decode error: " +:+ exn_str e) ;; ret None).

Definition read_sensor (reg_addr : Z) : IO (option Z) :=
  read_register reg_addr READ_SYSTEM_REGISTER 5 decode_rego_response.

Definition read_led_state (reg_addr : Z) : IO (option Z) :=
  read_register reg_addr READ_FRONT_PANEL 5 decode_rego_response.

Definition read_display_line (row_addr : Z) : IO (option string) :=
  read_register row_addr READ_DISPLAY 42 decode_display_response.

Definition read_setting (reg_addr : Z) : IO (option Z) :=
  read_register reg_addr READ_SYSTEM_REGISTER 5 decode_rego_response.

(** [len(response) == 1 and response[0] == PC_ADDRESS]. *)
Definition acknowledged (response : list Z) : IO bool :=
  if (length response =? 1)%nat
  then r0 <- lift (getitem response 0) ;; ret (r0 =? PC_ADDRESS)
  else ret false.

(** ** Configuration ([rego600_config.py]) and register maps *)

Definition MQTT_TOPIC_PREFIX : string := "rego600".

(** [d.update({k1: v1, ...})]: later entries win. *)
Definition dict_update {V : Type} (d : gmap string V) (kvs : list (string * V))
  : gmap string V :=
  fold_left (fun acc kv => <[kv.1 := kv.2]> acc) kvs d.

(** The maps that depend on the pump take [PUMP_SIZE_KW], the value of
    [int(PUMP_SIZE_KW)] at start-up. *)
Definition POWER_VALUES (PUMP_SIZE_KW : Z) : gmap string Z :=
  let d := dict_update ∅
    [ ("compressor", 1500); ("add_heat_3kw", 3000); ("add_heat_6kw", 6000);
      ("pump_p1", 55); ("pump_p2", 46); ("pump_p3", 106) ] in
  let d := if PUMP_SIZE_KW =? 4
           then dict_update d [ ("compressor", 1100); ("pump_p1", 0);
                                ("pump_p2", 35); ("pump_p3", 70) ]
           else d in
  let d := if PUMP_SIZE_KW =? 7 then dict_update d [ ("compressor", 1850) ] else d in
  let d := if PUMP_SIZE_KW =? 9 then dict_update d [ ("compressor", 2500) ] else d in
  let d := if PUMP_SIZE_KW =? 11 then dict_update d [ ("compressor", 4600) ] else d in
  let d := if PUMP_SIZE_KW =? 14
           then dict_update d [ ("compressor", 4100); ("add_heat_3kw", 5250);
                                ("add_heat_6kw", 10500) ]
           else d in
  let d := if PUMP_SIZE_KW =? 16
           then dict_update d [ ("compressor", 4600); ("add_heat_3kw", 5250);
                                ("add_heat_6kw", 10500); ("pump_p1", 90);
                                ("pump_p2", 165) ]
           else d in
  d.

Definition BINARY_SENSOR_MAP (PUMP_SIZE_KW : Z) : gmap string Z :=
  let d := dict_update ∅
    [ ("Three-way Valve", 0x0205); ("Add Heat Percentage", 0x006C);
      ("Radiator Pump P1", 0x0203); ("Heat carrier pump P2", 0x0204);
      ("Ground loop pump P3", 0x01FD); ("Compressor", 0x01FE);
      ("Alarm", 0x0206) ] in
  if (PUMP_SIZE_KW =? 14) || (PUMP_SIZE_KW =? 16)
  then dict_update d [ ("Add heat 5kw", 0x01FF); ("Add heat 10kw", 0x0200) ]
  else dict_update d [ ("Add heat 3kw", 0x01FF); ("Add heat 6kw", 0x0200) ].

Definition SETTINGS_MAP : gmap string Z :=
  dict_update ∅
    [ ("Heat curve", 0x0000); ("Heat curve fine adj.", 0x0001);
      ("Indoor temp setting", 0x0021); ("Curve infl. by in-temp.", 0x0022);
      ("Heat curve coupling diff.", 0x0002);
      ("Adjust curve at +20° out", 0x001E); ("Adjust curve at +15° out", 0x001C);
      ("Adjust curve at +10° out", 0x001A); ("Adjust curve at +5° out", 0x0018);
      ("Adjust curve at 0° out", 0x0016); ("Adjust curve at -5° out", 0x0014);
      ("Adjust curve at -10° out", 0x0012); ("Adjust curve at -15° out", 0x0010);
      ("Adjust curve at -20° out", 0x000E); ("Adjust curve at -25° out", 0x000C);
      ("Adjust curve at -30° out", 0x000A); ("Adjust curve at -35° out", 0x0008) ].

Definition KEYPANEL_MAP : gmap string Z :=
  dict_update ∅
    [ ("Key 1", 0x0009); ("Key 2", 0x000A); ("Key 3", 0x000B); ("Wheel", 0x0044);
      ("Wheel left", 0xff00); ("Wheel right", 0xff01) ].

(** ** Writes: settings, keys and the wheel *)

Definition write_setting (reg_addr value : Z) : IO bool :=
  response <- with_serial_lock (
      let reg_bytes := encode_register reg_addr in
      let value_bytes := encode_register value in
      let packet := [PUMP_ADDRESS; WRITE_SYSTEM_REGISTER] ++ reg_bytes ++ value_bytes in
      let packet := packet ++ [calculate_checksum packet] in
      frame <- lift (bytes packet) ;;
      ser_write frame ;;
      ser_read 1) ;;
  acknowledged response.

Definition press_key (reg_addr : Z) : IO bool :=
  response <- with_serial_lock (
      let reg_bytes := encode_register reg_addr in
      let value_bytes := encode_register 1 in
      let packet := [PUMP_ADDRESS; WRITE_FRONT_PANEL] ++ reg_bytes ++ value_bytes in
      let packet := packet ++ [calculate_checksum packet] in
      frame <- lift (bytes packet) ;;
      ser_write frame ;;
      ser_read 1) ;;
  acknowledged response.

(** The value bytes [turn_wheel] builds from [value]: three groups, the
    third of which is then overwritten. *)
Definition wheel_value_bytes (value : Z) : list Z :=
  let value_bytes :=
    [ Z.shiftr (Z.land value 0xC0000) 18;
      Z.shiftr (Z.land value 0x3F800) 11;
      Z.shiftr (Z.land value 0x007F00) 4 ] in
  <[2%nat := Z.land (Z.shiftr (Z.land value 0x0000FF) 0) 0x7F]> value_bytes.

(** The sentinel [turn_wheel] picks for a direction; [None] is the [else]
    branch of its [if]/[elif] chain. *)
Definition wheel_value (direction : string) : option Z :=
  if String.eqb direction "left" then Some 0x1FFFFF
  else if String.eqb direction "right" then Some 0x000001
  else None.

Definition turn_wheel (direction : string) : IO bool :=
  wheel <- lift (dict_getitem KEYPANEL_MAP "Wheel") ;;
  let reg_bytes := encode_register wheel in
  match wheel_value direction with
  | None =>
      logging ERROR ("Invalid direction for wheel: " +:+ direction) ;;
      ret false
  | Some value =>
      let value_bytes := wheel_value_bytes value in
      response <- with_serial_lock (
          let packet := [PUMP_ADDRESS; WRITE_FRONT_PANEL] ++ reg_bytes ++ value_bytes in
          let packet := packet ++ [calculate_checksum packet] in
          frame <- lift (bytes packet) ;;
          ser_write frame ;;
          ser_read 1) ;;
      acknowledged response
  end.

(** The value bytes as the specification words them: the sentinel shifted
    right by 18, 11 and 4 bits, each group masked to 7 bits. *)
Definition wheel_value_bytes_as_specified (value : Z) : list Z :=
  [ Z.land (Z.shiftr value 18) 0x7F;
    Z.land (Z.shiftr value 11) 0x7F;
    Z.land (Z.shiftr value 4) 0x7F ].

(** ** Inbound commands *)

Definition setting_topics : list (string * string) :=
  [ ("indoor_temp_setting", "Indoor temp setting");
    ("heat_curve", "Heat curve");
    ("heat_curve_fine_adj", "Heat curve fine adj.");
    ("curve_infl_by_in_temp", "Curve infl. by in-temp.");
    ("heat_curve_coupling_diff", "Heat curve coupling diff.");
    ("adjust_curve_at_20_out", "Adjust curve at +20° out");
    ("adjust_curve_at_15_out", "Adjust curve at +15° out");
    ("adjust_curve_at_10_out", "Adjust curve at +10° out");
    ("adjust_curve_at_5_out", "Adjust curve at +5° out");
    ("adjust_curve_at_0_out", "Adjust curve at 0° out");
    ("adjust_curve_at_-5_out", "Adjust curve at -5° out");
    ("adjust_curve_at_-10_out", "Adjust curve at -10° out");
    ("adjust_curve_at_-15_out", "Adjust curve at -15° out");
    ("adjust_curve_at_-20_out", "Adjust curve at -20° out");
    ("adjust_curve_at_-25_out", "Adjust curve at -25° out");
    ("adjust_curve_at_-30_out", "Adjust curve at -30° out");
    ("adjust_curve_at_-35_out", "Adjust curve at -35° out") ].

Definition key_topics : list (string * string) :=
  [ ("1", "Key 1"); ("2", "Key 2"); ("3", "Key 3");
    ("wheel_left", "left"); ("wheel_right", "right") ].

(** The first loop of [on_mqtt_message]; [true] when the handler returned
    from inside the loop. *)
Fixpoint dispatch_setting (topic : string) (payload : Z)
  (items : list (string * string)) : IO bool :=
  match items with
  | [] => ret false
  | (key, reg_name) :: rest =>
      if String.eqb topic (MQTT_TOPIC_PREFIX +:+ "/set/setting/" +:+ key) then
        reg_addr <- lift (dict_getitem SETTINGS_MAP reg_name) ;;
        write_setting reg_addr payload ;;
        logging INFO ("Updated setting " +:+ reg_name +:+ " → "
                      +:+ str_of_int payload) ;;
        ret true
      else dispatch_setting topic payload rest
  end.

(** The second loop, over [key_topics]. *)
Fixpoint dispatch_key (topic : string) (items : list (string * string)) : IO bool :=
  match items with
  | [] => ret false
  | (key, action) :: rest =>
      if String.eqb topic (MQTT_TOPIC_PREFIX +:+ "/set/key/" +:+ key) then
        (if contains "wheel" key then
           turn_wheel action ;;
           logging INFO ("Turned wheel " +:+ action)
         else
           reg_addr <- lift (dict_getitem KEYPANEL_MAP action) ;;
           press_key reg_addr ;;
           logging INFO ("Pressed " +:+ action)) ;;
        ret true
      else dispatch_key topic rest
  end.

Section Handler.

(** Two builtins the handler calls on what the broker delivers:
    [msg.payload.decode()], which raises [UnicodeDecodeError] on bytes
    that are not UTF-8, and [int(payload_raw)], which raises [ValueError]
    on text that is not an integer literal. *)
Variable payload_decode : list Z -> result string.
Variable int_of_str : string -> result Z.

(** What follows the [try] block, with the payload parsed. *)
Definition dispatch (topic : string) (payload : Z) : IO unit :=
  returned <- dispatch_setting topic payload setting_topics ;;
  if (returned : bool) then ret tt
  else
    returned <- dispatch_key topic key_topics ;;
    if (returned : bool) then ret tt
    else logging WARNING ("Unexpected MQTT-topic: " +:+ topic).

Definition on_mqtt_message (topic : string) (msg_payload : list Z) : IO unit :=
  payload_raw <- lift (payload_decode msg_payload) ;;
  match int_of_str payload_raw with
  | Ok payload => dispatch topic payload
  | Raise e =>
      if is_ValueError e
      then logging WARNING ("Ignores invalid payload: " +:+ payload_raw)
      else raise e
  end.

End Handler.

(** ** Instantaneous power *)

Definition mqtt_publish (topic : string) (value : payload) : IO unit :=
  let full_topic := MQTT_TOPIC_PREFIX +:+ "/" +:+ topic in
  emit (MqttPublish full_topic value true).

(** [read_sensor(ser, reg) == 1]. *)
Definition reads_one (value : option Z) : bool :=
  match value with
  | Some n => n =? 1
  | None => false
  end.

(** [table[key] if on else 0]: the table is only consulted when [on]. *)
Definition watts_if (table : gmap string Z) (key : string) (on : bool) : IO Z :=
  if on then lift (dict_getitem table key) else ret 0.

Fixpoint publish_items (items : list (string * Z)) : IO unit :=
  match items with
  | [] => ret tt
  | (name, value) :: rest =>
      mqtt_publish ("power/" +:+ name) (PInt value) ;;
      publish_items rest
  end.

(** [sum(values)] on ints. *)
Definition sum_ints (values : list Z) : Z := fold_left Z.add values 0.

Definition publish_power_sensors (PUMP_SIZE_KW : Z) : IO Z :=
  let sensors := BINARY_SENSOR_MAP PUMP_SIZE_KW in
  let watts := POWER_VALUES PUMP_SIZE_KW in
  try_except
    (reg <- lift (dict_getitem sensors "Compressor") ;;
     value <- read_sensor reg ;;
     let compressor_on := reads_one value in
     reg <- lift (dict_getitem sensors "Add heat 3kw") ;;
     value <- read_sensor reg ;;
     let add3_on := reads_one value in
     reg <- lift (dict_getitem sensors "Add heat 6kw") ;;
     value <- read_sensor reg ;;
     let add6_on := reads_one value in
     reg <- lift (dict_getitem sensors "Radiator Pump P1") ;;
     value <- read_sensor reg ;;
     let p1_on := reads_one value in
     reg <- lift (dict_getitem sensors "Heat carrier pump P2") ;;
     value <- read_sensor reg ;;
     let p2_on := reads_one value in
     reg <- lift (dict_getitem sensors "Ground loop pump P3") ;;
     value <- read_sensor reg ;;
     let p3_on := reads_one value in
     w_compressor <- watts_if watts "compressor" compressor_on ;;
     w_add3 <- watts_if watts "add_heat_3kw" add3_on ;;
     w_add6 <- watts_if watts "add_heat_6kw" add6_on ;;
     w_p1 <- watts_if watts "pump_p1" p1_on ;;
     w_p2 <- watts_if watts "pump_p2" p2_on ;;
     w_p3 <- watts_if watts "pump_p3" p3_on ;;
     let power_map :=
       [ ("compressor", w_compressor); ("add_heat_3kw", w_add3);
         ("add_heat_6kw", w_add6); ("pump_p1", w_p1); ("pump_p2", w_p2);
         ("pump_p3", w_p3) ] in
     let total := sum_ints (map snd power_map) in
     let power_map := power_map ++ [("total", total)] in
     publish_items power_map ;;
     logging DEBUG ("Energy sensors updated: total " +:+ str_of_int total +:+ " W") ;;
     ret total)
    is_Exception
    (fun e =>
       logging WARNING ("Error in calculating power: " +:+ exn_str e) ;;
       ret 0).

(** ** Energy accumulation

    The update [monitor_loop] makes after each full sweep:
    [total_power_w] is the int [publish_power_sensors] returned and
    [now_energy] the reading of [time.time()].  The new values of
    [energy_total_kwh] and [last_energy_update] are returned. *)

(** The conversion [int * float] applies to its int: the nearest float,
    ties to even; an int beyond the range of a float raises. *)
Definition float_of_int (n : Z) : result float :=
  let x := SF2Prim (binary_normalize prec emax n 0 false) in
  if PrimFloat.is_infinity x
  then Raise (OverflowError "int too large to convert to float")
  else Ok x.

Definition energy_update (energy_total_kwh last_energy_update : float)
  (total_power_w : Z) (now_energy : float) : result (float * float) :=
  let dt_hours := ((now_energy - last_energy_update) / 3600)%float in
  power <-! float_of_int total_power_w;
  let energy_total_kwh := (energy_total_kwh + (power * dt_hours) / 1000)%float in
  let last_energy_update := now_energy in
  Ok (energy_total_kwh, last_energy_update).

(** ** Instances used to run the model

    [utf8_decode] is [bytes.decode()]: it accepts exactly the well-formed
    UTF-8 byte sequences and keeps the bytes as the text.  [int_literal] is
    [int(text)] as CPython 3.11 computes it: every character outside ASCII
    is first turned into a space (if it is whitespace) or into its ASCII
    digit (if it is a decimal digit of Unicode 14); then blanks, a sign,
    digits with single underscores between them, and blanks are read.  A
    literal of more than 4300 digits is refused.  The message of the
    [ValueError] shows the text between quotes, without the escapes of
    [repr]. *)

Module Builtins.

Definition continuation_byte (b : Z) : bool := (0x80 <=? b) && (b <=? 0xBF).

Definition within (lo hi b : Z) : bool := (lo <=? b) && (b <=? hi).

Fixpoint utf8_valid (bs : list Z) : bool :=
  match bs with
  | [] => true
  | b0 :: rest =>
      if within 0x00 0x7F b0 then utf8_valid rest
      else if within 0xC2 0xDF b0 then
        match rest with
        | b1 :: rest' => continuation_byte b1 && utf8_valid rest'
        | _ => false
        end
      else if within 0xE0 0xEF b0 then
        match rest with
        | b1 :: b2 :: rest' =>
            (if b0 =? 0xE0 then within 0xA0 0xBF b1
             else if b0 =? 0xED then within 0x80 0x9F b1
             else continuation_byte b1)
            && continuation_byte b2 && utf8_valid rest'
        | _ => false
        end
      else if within 0xF0 0xF4 b0 then
        match rest with
        | b1 :: b2 :: b3 :: rest' =>
            (if b0 =? 0xF0 then within 0x90 0xBF b1
             else if b0 =? 0xF4 then within 0x80 0x8F b1
             else continuation_byte b1)
            && continuation_byte b2 && continuation_byte b3 && utf8_valid rest'
        | _ => false
        end
      else false
  end.

Definition utf8_decode (bs : list Z) : result string :=
  if utf8_valid bs then Ok (text_of_bytes bs)
  else Raise (UnicodeDecodeError "'utf-8' codec can't decode bytes").

(** The digit zero of every run of decimal digits. *)
Definition decimal_zeros : list Z :=
  [ 0x30; 0x660; 0x6F0; 0x7C0; 0x966; 0x9E6; 0xA66; 0xAE6; 0xB66; 0xBE6; 0xC66;
    0xCE6; 0xD66; 0xDE6; 0xE50; 0xED0; 0xF20; 0x1040; 0x1090; 0x17E0; 0x1810;
    0x1946; 0x19D0; 0x1A80; 0x1A90; 0x1B50; 0x1BB0; 0x1C40; 0x1C50; 0xA620;
    0xA8D0; 0xA900; 0xA9D0; 0xA9F0; 0xAA50; 0xABF0; 0xFF10; 0x104A0; 0x10D30;
    0x11066; 0x110F0; 0x11136; 0x111D0; 0x112F0; 0x11450; 0x114D0; 0x11650;
    0x116C0; 0x11730; 0x118E0; 0x11950; 0x11C50; 0x11D50; 0x11DA0; 0x16A60;
    0x16AC0; 0x16B50; 0x1D7CE; 0x1D7D8; 0x1D7E2; 0x1D7EC; 0x1D7F6; 0x1E140;
    0x1E2F0; 0x1E950; 0x1FBF0 ].

Definition decimal_value (code : Z) : option Z :=
  match find (fun zero => (zero <=? code) && (code <? zero + 10)) decimal_zeros with
  | Some zero => Some (code - zero)
  | None => None
  end.

(** The ASCII code a character is read as; [None] for a character that is
    neither ASCII, nor whitespace, nor a decimal digit. *)
Definition as_ascii (c : string) : option Z :=
  let code := code_point c in
  if code <? 0x80 then Some code
  else if isspace c then Some 0x20
  else option_map (fun d => 0x30 + d) (decimal_value code).

Fixpoint all_ascii (cs : list string) : option (list Z) :=
  match cs with
  | [] => Some []
  | c :: rest =>
      match as_ascii c, all_ascii rest with
      | Some b, Some bs => Some (b :: bs)
      | _, _ => None
      end
  end.

(** The blanks the parser skips: tab to carriage return, and the space. *)
Definition blank (b : Z) : bool := ((0x09 <=? b) && (b <=? 0x0D)) || (b =? 0x20).

Fixpoint skip_blanks (bs : list Z) : list Z :=
  match bs with
  | b :: rest => if blank b then skip_blanks rest else bs
  | [] => []
  end.

(** Digits and underscores: the value, the number of digits, and what
    follows.  [after_digit] tells whether the byte just read was a digit:
    an underscore must follow a digit and be followed by one. *)
Fixpoint digits (acc : Z) (count : nat) (after_digit : bool) (bs : list Z)
  : option (Z * nat * list Z) :=
  match bs with
  | [] => if after_digit then Some (acc, count, []) else None
  | b :: rest =>
      if (0x30 <=? b) && (b <=? 0x39) then digits (10 * acc + (b - 0x30)) (S count) true rest
      else if b =? 0x5F then
        if after_digit then digits acc count false rest else None
      else if after_digit then Some (acc, count, bs) else None
  end.

Definition invalid_literal (s : string) : exn :=
  ValueError ("invalid literal for int() with base 10: '" +:+ s +:+ "'").

Definition too_many_digits (count : nat) : exn :=
  ValueError ("Exceeds the limit (4300 digits) for integer string conversion: value has "
              +:+ str_of_int (Z.of_nat count)
              +:+ " digits; use sys.set_int_max_str_digits() to increase the limit").

Definition int_literal (s : string) : result Z :=
  match all_ascii (chars s) with
  | None => Raise (invalid_literal s)
  | Some bs =>
      let bs := skip_blanks bs in
      let '(negative, bs) :=
        match bs with
        | 0x2B :: rest => (false, rest)
        | 0x2D :: rest => (true, rest)
        | _ => (false, bs)
        end in
      match digits 0 0 false bs with
      | None => Raise (invalid_literal s)
      | Some (n, count, rest) =>
          if (4300 <? count)%nat then Raise (too_many_digits count)
          else
            match skip_blanks rest with
            | [] => Ok (if negative then - n else n)
            | _ => Raise (invalid_literal s)
            end
      end
  end.

(** [text.encode()]. *)
Definition bytes_of_text (s : string) : list Z := Py.bytes_of_text s.

End Builtins.

(** A controller on which every register reads as 1: it answers a register
    read with the five bytes of the value 1 and any other frame with the
    one-byte acknowledgement. *)
Definition pump_all_on (frame : list Z) : list Z :=
  match frame !! 1%nat with
  | Some command =>
      if (command =? READ_FRONT_PANEL) || (command =? READ_SYSTEM_REGISTER)
         || (command =? READ_TIMER_REGISTER)
      then [0x01; 0x00; 0x00; 0x01; 0x01]
      else [0x01]
  | None => []
  end.

Definition fresh_port (pump : list Z -> list Z) : Serial :=
  {| fault := None; sent := []; inbound := []; pump := pump |}.

Definition fresh_world (pump : list Z -> list Z) : World :=
  {| serial := fresh_port pump; events := [] |}.

(** ** Vocabulary of the properties *)

(** Bytes 2 to 7 of a frame, the register and value groups, all have the
    high bit clear. *)
Definition seven_bit_clean (frame : list Z) : Prop :=
  Forall (fun b => 0 <= b <= 0x7F) (slice 2 8 frame).

(** The frame every request is made of: two header bytes, two groups of
    three bytes and the checksum of the groups. *)
Definition frame_of (address command : Z) (reg_bytes value_bytes : list Z) : list Z :=
  let packet := [address; command] ++ reg_bytes ++ value_bytes in
  packet ++ [calculate_checksum packet].

(** The world after a frame went out and [size] bytes were asked for. *)
Definition after_exchange (frame : list Z) (size : nat) (w : World) : World :=
  let s := serial w in
  {| serial := {| fault := None;
                  sent := sent s ++ [frame];
                  inbound := drop size (inbound s ++ pump s frame);
                  pump := pump s |};
     events := events w ++ [LockAcquire; LockRelease] |}.

(** The bytes that exchange reads. *)
Definition response_to (frame : list Z) (size : nat) (w : World) : list Z :=
  take size (inbound (serial w) ++ pump (serial w) frame).

(** The frame [read_register] sends. *)
Definition read_frame (command reg_addr : Z) : list Z :=
  frame_of PUMP_ADDRESS command (encode_register reg_addr) [0; 0; 0].

(** The readers built on [read_register] with the five-byte decoder, each
    with the command it sends. *)
Definition five_byte_readers : list (Z * (Z -> IO (option Z))) :=
  [ (READ_SYSTEM_REGISTER, read_sensor);
    (READ_FRONT_PANEL, read_led_state);
    (READ_SYSTEM_REGISTER, read_setting) ].

(** What makes a five-byte response unusable for a read that expects
    [expected_length] bytes and decodes with [decode_func]. *)
Definition unusable {A : Type} (expected_length : nat)
  (decode_func : list Z -> result A) (r0 r1 r2 r3 r4 : Z) : Prop :=
  expected_length <> 5%nat
  \/ r0 <> PC_ADDRESS
  \/ Z.lxor (Z.lxor r1 r2) r3 <> r4
  \/ (exists msg, decode_func [r0; r1; r2; r3; r4] = Raise (ValueError msg)).

(** The outcome of a read that yields nothing: [None] is returned, the port
    is as the exchange left it, and one warning was logged. *)
Definition absent_after {A : Type} (frame : list Z) (size : nat) (w : World)
  (outcome : result (option A) * World) : Prop :=
  fst outcome = Ok None
  /\ serial (snd outcome) = serial (after_exchange frame size w)
  /\ exists msg,
      events (snd outcome) = events (after_exchange frame size w) ++ [Log WARNING msg].

(** A controller whose answer has a wrong checksum byte: the XOR of
    0x00, 0x01 and 0x7B is 0x7A. *)
Definition pump_corrupt (frame : list Z) : list Z := [0x01; 0x00; 0x01; 0x7B; 0x00].

(** The character code a pair of bytes stands for: the low nibble of each. *)
Definition pair_code (high low : Z) : Z :=
  Z.lor (Z.shiftl (Z.land high 0x0F) 4) (Z.land low 0x0F).

(** What a character code of the controller becomes in the text: the
    private-use character U+F0A2 for the filler 0xFF, the degree sign for
    0xDF, the character with that code otherwise. *)
Definition glyph (code : Z) : string :=
  if code =? 0xFF then private_use_F0A2
  else if code =? 0xDF then "°"%string
  else match chr code with
       | Ok char => char
       | Raise _ => EmptyString
       end.

Fixpoint pair_glyphs (body : list Z) : list string :=
  match body with
  | high :: low :: rest => glyph (pair_code high low) :: pair_glyphs rest
  | _ => []
  end.

(** The text of a display response before trimming: one glyph per pair of
    bytes at offsets 1 to 40. *)
Definition display_text (data : list Z) : string :=
  join (pair_glyphs (slice 1 41 data)).

(** The reading of the claim: the filler leaves nothing in the text. *)
Definition glyph_as_specified (code : Z) : string :=
  if code =? 0xFF then EmptyString else glyph code.

Fixpoint pair_glyphs_as_specified (body : list Z) : list string :=
  match body with
  | high :: low :: rest =>
      glyph_as_specified (pair_code high low) :: pair_glyphs_as_specified rest
  | _ => []
  end.

Definition display_text_as_specified (data : list Z) : string :=
  join (pair_glyphs_as_specified (slice 1 41 data)).

(** A display response for a row of character codes: two nibbles per
    code, the rest of the twenty positions filled with 0xFF, and one
    closing byte.  [cells] gives the codes of an ASCII text. *)
Definition nibbles_of (code : Z) : list Z :=
  [Z.shiftr code 4; Z.land code 0x0F].

Definition display_response (codes : list Z) : list Z :=
  let padded := take 20 (codes ++ repeat 0xFF 20) in
  [PC_ADDRESS] ++ concat (map nibbles_of padded) ++ [0x00].

Definition cells (text : string) : list Z := bytes_of_text text.

(** The sum the wattage table gives for a set of running components. *)
Definition table_power (PUMP_SIZE_KW : Z)
  (compressor_on add3_on add6_on p1_on p2_on p3_on : bool) : Z :=
  let watts := POWER_VALUES PUMP_SIZE_KW in
  let entry key (on : bool) := if on then default 0 (watts !! key) else 0 in
  entry "compressor"%string compressor_on + entry "add_heat_3kw"%string add3_on
  + entry "add_heat_6kw"%string add6_on + entry "pump_p1"%string p1_on
  + entry "pump_p2"%string p2_on + entry "pump_p3"%string p3_on.

Definition is_publish (e : event) : bool :=
  match e with MqttPublish _ _ _ => true | _ => false end.

(** What a five-byte read makes of the bytes it got: the decoded value when
    there are five of them, the first is the echo address and the checksum
    holds. *)
Definition accepted (response : list Z) : option Z :=
  match response with
  | [r0; r1; r2; r3; r4] =>
      if (r0 =? PC_ADDRESS) && (Z.lxor (Z.lxor r1 r2) r3 =? r4)
      then match decode_rego_response response with
           | Ok value => Some value
           | Raise _ => None
           end
      else None
  | _ => None
  end.

(** Reading register [reg] as a boolean on port [s]: whether the value read
    is 1, and the port afterwards. *)
Definition sensor_on (reg : Z) (s : Serial) : bool * Serial :=
  let frame := read_frame READ_SYSTEM_REGISTER reg in
  let available := inbound s ++ pump s frame in
  (reads_one (accepted (take 5 available)),
   {| fault := None;
      sent := sent s ++ [frame];
      inbound := drop 5 available;
      pump := pump s |}).


(** [n] full sweeps in a row, [interval] seconds apart, with the same
    power read on each. *)
Fixpoint sweeps (n : nat) (interval : float) (total_power_w : Z)
  (energy_total_kwh last_energy_update : float) : result (float * float) :=
  match n with
  | O => Ok (energy_total_kwh, last_energy_update)
  | S n' =>
      state <-! energy_update energy_total_kwh last_energy_update total_power_w
                  (last_energy_update + interval)%float;
      sweeps n' interval total_power_w (fst state) (snd state)
  end.

(** The number a finite float stands for. *)
Definition exact (x : float) : option Q :=
  match Prim2SF x with
  | S754_zero _ => Some (0 # 1)
  | S754_finite negative m e =>
      Some (Qmult (inject_Z (if negative then Z.neg m else Z.pos m))
                  (Qpower (2 # 1) e))
  | _ => None
  end.

(** The reading of the claim: the update adds exactly
    [total_power_w * elapsed_hours / 1000] to the total. *)
Definition increase_as_specified (energy_total_kwh last_energy_update : float)
  (total_power_w : Z) (now_energy : float) : bool :=
  match energy_update energy_total_kwh last_energy_update total_power_w now_energy,
        exact energy_total_kwh, exact last_energy_update, exact now_energy with
  | Ok (total', _), Some before, Some t0, Some t1 =>
      match exact total' with
      | Some after =>
          Qeq_bool (Qminus after before)
            (Qdiv (Qmult (inject_Z total_power_w)
                         (Qdiv (Qminus t1 t0) (inject_Z 3600)))
                  (inject_Z 1000))
      | None => false
      end
  | _, _, _, _ => false
  end.

(** ** Vocabulary of the further properties *)

(** The three bytes a controller sends for the signed value [value]: its
    17-bit two's complement pattern in groups of 3, 7 and 7 bits. *)
Definition signed_groups (value : Z) : list Z :=
  [ (value / 2 ^ 14) mod 2 ^ 3; (value / 2 ^ 7) mod 2 ^ 7; value mod 2 ^ 7 ].

(** A well-formed five-byte answer carrying [value]. *)
Definition reply_with (value : Z) : list Z :=
  [PC_ADDRESS] ++ signed_groups value
  ++ [fold_left Z.lxor (signed_groups value) 0].

(** [len(response) == 1 and response[0] == PC_ADDRESS] as a value. *)
Definition acked (response : list Z) : bool :=
  match response with
  | [b] => b =? PC_ADDRESS
  | _ => false
  end.

Definition is_lock (e : event) : bool :=
  match e with LockAcquire | LockRelease => true | _ => false end.

(** The world after an exchange that failed on the port: the lock was
    taken and released, nothing else happened. *)
Definition after_failed_exchange (w : World) : World :=
  {| serial := serial w; events := events w ++ [LockAcquire; LockRelease] |}.

(** The command topics of the two loops of [on_mqtt_message]. *)
Definition setting_topic (key : string) : string :=
  MQTT_TOPIC_PREFIX +:+ "/set/setting/" +:+ key.

Definition key_topic (key : string) : string :=
  MQTT_TOPIC_PREFIX +:+ "/set/key/" +:+ key.

(** The world after a write of [frame] that was then logged with [msg]. *)
Definition after_logged_write (frame : list Z) (msg : string) (w : World) : World :=
  {| serial := serial (after_exchange frame 1 w);
     events := events w ++ [LockAcquire; LockRelease; Log INFO msg] |}.

(** ** The polling loops of [monitor_loop]

    The maps a loop iterates over are given as their items, in the order
    in which the source writes them ([dict.items()] keeps that order). *)

Definition SENSOR_MAP : list (string * Z) :=
  [ ("Radiator Return GT1", 0x0209); ("Radiator Target GT1", 0x006E);
    ("Outdoor GT2", 0x020A); ("Hot Water GT3", 0x020B);
    ("Hot Water Target GT3", 0x002B); ("Forward Target GT4", 0x006D);
    ("Room GT5", 0x020D); ("Compressor GT6", 0x020E);
    ("Heat fluid out GT8", 0x020F); ("Heat fluid in GT9", 0x0210);
    ("Cold fluid in GT10", 0x0211); ("Cold fluid out GT11", 0x0212);
    ("GT3 On", 0x0073); ("GT3 Off", 0x0074) ].

Definition DISPLAY_ROWS : list (string * Z) :=
  [ ("Row 1", 0x0000); ("Row 2", 0x0001); ("Row 3", 0x0002); ("Row 4", 0x0003) ].

(** [name.replace(' ', '_')]. *)
Fixpoint replace_spaces (name : string) : string :=
  match name with
  | EmptyString => EmptyString
  | String c rest =>
      String (if Ascii.eqb c " " then "_"%char else c) (replace_spaces rest)
  end.

Definition is_SerialException (e : exn) : bool :=
  match e with SerialException _ => true | _ => false end.

(** The body of the [try] in [publish_map], for one entry. *)
Definition publish_entry (read_func : Z -> IO (option Z)) (topic_prefix name : string)
  (reg : Z) : IO unit :=
  value <- read_func reg ;;
  match value with
  | Some n =>
      let topic := topic_prefix +:+ "/" +:+ replace_spaces name in
      mqtt_publish topic (PInt n)
  | None => ret tt
  end.

(** [publish_map]: a [SerialException] ends the loop ([break]), any other
    [Exception] is logged and the loop goes on ([continue]); what is not
    an [Exception] leaves the function. *)
Fixpoint publish_map (map_obj : list (string * Z)) (read_func : Z -> IO (option Z))
  (topic_prefix : string) : IO unit :=
  match map_obj with
  | [] => ret tt
  | (name, reg) :: rest =>
      fun w =>
        match publish_entry read_func topic_prefix name reg w with
        | (Ok _, w') => publish_map rest read_func topic_prefix w'
        | (Raise e, w') =>
            if is_SerialException e then
              logging ERROR ("Serial error while reading " +:+ name +:+ ": "
                             +:+ exn_str e) w'
            else if is_Exception e then
              (logging WARNING ("Error reading " +:+ name +:+ ": " +:+ exn_str e) ;;
               publish_map rest read_func topic_prefix) w'
            else (Raise e, w')
        end
  end.

(** What a sweep over [map_obj] with [read_sensor] publishes, from the
    state of the port: the accepted values, in order. *)
Fixpoint polled (topic_prefix : string) (map_obj : list (string * Z)) (s : Serial)
  : list event :=
  match map_obj with
  | [] => []
  | (name, reg) :: rest =>
      let frame := read_frame READ_SYSTEM_REGISTER reg in
      let later := polled topic_prefix rest (snd (sensor_on reg s)) in
      match accepted (take 5 (inbound s ++ pump s frame)) with
      | Some n =>
          MqttPublish (MQTT_TOPIC_PREFIX +:+ "/" +:+ topic_prefix +:+ "/"
                       +:+ replace_spaces name) (PInt n) true :: later
      | None => later
      end
  end.

(** One pass of the [for] loop of [display_monitor] over [rows].  The
    cache [last_display] is updated in place by the source, so what was
    stored before an exception stays stored: the cache is returned with
    the outcome. *)
Fixpoint display_rows (rows : list (string * Z)) (last_display : gmap string string)
  (w : World) : result unit * gmap string string * World :=
  match rows with
  | [] => (Ok tt, last_display, w)
  | (row_name, row_addr) :: rest =>
      match read_display_line row_addr w with
      | (Raise e, w') => (Raise e, last_display, w')
      | (Ok None, w') => display_rows rest last_display w'
      | (Ok (Some new_value), w') =>
          if bool_decide (last_display !! row_name = Some new_value)
          then display_rows rest last_display w'
          else
            let last_display' := <[row_name := new_value]> last_display in
            let topic := "display/" +:+ replace_spaces row_name in
            match (mqtt_publish topic (PStr new_value) ;;
                   logging DEBUG ("Display changed: " +:+ row_name +:+ " = "
                                  +:+ new_value)) w' with
            | (Ok _, w'') => display_rows rest last_display' w''
            | (Raise e, w'') => (Raise e, last_display', w'')
            end
      end
  end.

(** One turn of the [while True] loop of [display_monitor]: the pass over
    the rows inside the [try], and the two handlers; what neither handles
    ends the loop.  The sleeps are left out. *)
Definition display_monitor_pass (rows : list (string * Z))
  (last_display : gmap string string) (w : World)
  : result unit * gmap string string * World :=
  match display_rows rows last_display w with
  | (Ok _, cache, w') => (Ok tt, cache, w')
  | (Raise e, cache, w') =>
      if is_SerialException e
      then (Ok tt, cache, snd (logging ERROR ("Display serial error: " +:+ exn_str e) w'))
      else if is_Exception e
      then (Ok tt, cache, snd (logging WARNING ("Display monitor error: " +:+ exn_str e) w'))
      else (Raise e, cache, w')
  end.

(** What the decoder makes of the bytes the controller sends for row
    [row_addr]: the text it returns, nothing if it refuses them. *)
Definition row_text (pump : list Z -> list Z) (row_addr : Z) : option string :=
  match decode_display_response (pump (read_frame READ_DISPLAY row_addr)) with
  | Ok text => Some text
  | Raise _ => None
  end.

(** A port at rest: working, nothing pending, and a controller that never
    sends more than the 42 bytes of a display row. *)
Definition at_rest (s : Serial) : Prop :=
  fault s = None /\ inbound s = [] /\ forall frame, (length (pump s frame) <= 42)%nat.

(** The rows a pass publishes, given what each row shows and the cache. *)
Fixpoint changed_rows (shows : Z -> option string) (rows : list (string * Z))
  (last_display : gmap string string) : list event :=
  match rows with
  | [] => []
  | (row_name, row_addr) :: rest =>
      match shows row_addr with
      | Some text =>
          if bool_decide (last_display !! row_name = Some text)
          then changed_rows shows rest last_display
          else MqttPublish (MQTT_TOPIC_PREFIX +:+ "/display/" +:+ replace_spaces row_name)
                 (PStr text) true
               :: changed_rows shows rest (<[row_name := text]> last_display)
      | None => changed_rows shows rest last_display
      end
  end.

(** The cache after a pass. *)
Fixpoint refreshed (shows : Z -> option string) (rows : list (string * Z))
  (last_display : gmap string string) : gmap string string :=
  match rows with
  | [] => last_display
  | (row_name, row_addr) :: rest =>
      match shows row_addr with
      | Some text => refreshed shows rest (<[row_name := text]> last_display)
      | None => refreshed shows rest last_display
      end
  end.

(** A controller whose display shows the codes [codes] on every row. *)
Definition pump_display (codes : list Z) (frame : list Z) : list Z :=
  display_response codes.

Definition failed_world (msg : string) : World :=
  {| serial := {| fault := Some msg; sent := []; inbound := []; pump := pump_all_on |};
     events := [] |}.

(** [n] copies of a text, one after the other. *)
Definition copies (n : nat) (c : string) : string := join (repeat c n).

(** A text that is one character: a byte that begins a character, then
    continuation bytes only. *)
Fixpoint all_continuation (s : string) : bool :=
  match s with
  | EmptyString => true
  | String _ rest => continuation s && all_continuation rest
  end.

Definition one_char (c : string) : bool :=
  match c with
  | String _ tail => negb (continuation c) && all_continuation tail
  | EmptyString => false
  end.

(** A character of a decoded row: the glyph of some code, and neither
    U+00FF nor U+00DF. *)
Definition shown_char (c : string) : Prop :=
  (exists code, 0 <= code < 256 /\ c = glyph code)
  /\ c <> "ÿ"%string /\ c <> "ß"%string.

(** * Properties *)

(** The address and command bytes, unfolded on demand. *)
Create HintDb wire.
#[local] Hint Unfold PUMP_ADDRESS PC_ADDRESS READ_FRONT_PANEL WRITE_FRONT_PANEL
  READ_SYSTEM_REGISTER WRITE_SYSTEM_REGISTER READ_TIMER_REGISTER
  WRITE_TIMER_REGISTER READ_DISPLAY : wire.

(** A header byte is in range. *)
Ltac wire_byte := autounfold with wire; lia.

(** Every element of a list written out satisfies a linear bound. *)
Ltac all_bounded := repeat (apply Forall_cons; split; [lia |]); apply Forall_nil_2.

Example encode_register_0209 : encode_register 0x0209 = [0; 4; 9].
Proof. reflexivity. Qed.

Example build_request_gt1 :
  build_request PUMP_ADDRESS READ_SYSTEM_REGISTER 0x0209
  = Ok [0x81; 0x02; 0; 4; 9; 0; 0; 0; 13].
Proof. reflexivity. Qed.

Example decode_rego_response_negative :
  decode_rego_response [0x01; 0x07; 0x7F; 0x7E; 0x06] = Ok (-2).
Proof. reflexivity. Qed.

(** ** Bit groups *)

Section BitGroups.

(** A group of bits cut out with a mask and a shift is a quotient taken
    modulo a power of two. *)
Lemma mask_shift_group (a lo width : Z) :
  0 <= lo -> 0 <= width ->
  Z.shiftr (Z.land a (Z.shiftl (Z.ones width) lo)) lo = (a / 2 ^ lo) mod 2 ^ width.
Proof.
  intros Hlo Hw.
  rewrite Z.shiftr_land, Z.shiftr_shiftl_l, Z.sub_diag, Z.shiftl_0_r by lia.
  rewrite Z.land_ones, Z.shiftr_div_pow2 by lia.
  reflexivity.
Qed.

Lemma testbit_small (y k n : Z) :
  0 <= y < 2 ^ k -> k <= n -> Z.testbit y n = false.
Proof.
  intros Hy Hn.
  destruct (Z.neg_nonneg_cases k) as [Hk | Hk].
  - rewrite Z.pow_neg_r in Hy by lia. lia.
  - rewrite <- (Z.mod_small y (2 ^ k)) by lia.
    apply Z.mod_pow2_bits_high. lia.
Qed.

(** Or-ing a value below [2 ^ k] under a multiple of [2 ^ k] adds it. *)
Lemma lor_high_low (x y k : Z) :
  0 <= k -> 0 <= y < 2 ^ k -> Z.lor (x * 2 ^ k) y = x * 2 ^ k + y.
Proof.
  intros Hk Hy. symmetry. apply Z.add_nocarry_lor.
  apply Z.bits_inj'. intros n Hn.
  rewrite Z.land_spec, Z.bits_0.
  destruct (Z.lt_ge_cases n k) as [Hlt | Hge].
  - rewrite Z.mul_pow2_bits_low by lia. reflexivity.
  - rewrite (testbit_small y k n) by lia. apply andb_false_r.
Qed.

(** A value below [2 ^ k] has bit [k] clear. *)
Lemma land_pow2_small (a k : Z) :
  0 <= k -> 0 <= a < 2 ^ k -> Z.land a (2 ^ k) = 0.
Proof.
  intros Hk Ha. apply Z.bits_inj'. intros n Hn.
  rewrite Z.land_spec, Z.bits_0, Z.pow2_bits_eqb by lia.
  destruct (Z.eqb_spec k n) as [<- | Hne].
  - rewrite (testbit_small a k k) by lia. reflexivity.
  - apply andb_false_r.
Qed.

End BitGroups.

(** ** [encode_register] *)

Lemma encode_register_groups (reg_addr : Z) :
  encode_register reg_addr
  = [ (reg_addr / 2 ^ 14) mod 2 ^ 2; (reg_addr / 2 ^ 7) mod 2 ^ 7; reg_addr mod 2 ^ 7 ].
Proof.
  unfold encode_register.
  change 0xC000 with (Z.shiftl (Z.ones 2) 14).
  change 0x3F80 with (Z.shiftl (Z.ones 7) 7).
  change 0x007F with (Z.ones 7).
  rewrite !mask_shift_group by lia.
  rewrite Z.land_ones by lia.
  reflexivity.
Qed.

(** The three groups [decode_rego_response] reads back, put together. *)
Lemma reassemble_groups (b1 b2 b3 : Z) :
  0 <= b1 -> 0 <= b2 < 2 ^ 7 -> 0 <= b3 < 2 ^ 7 ->
  Z.lor (Z.lor (Z.shiftl (Z.land b1 0x7F) 14) (Z.shiftl (Z.land b2 0x7F) 7))
        (Z.land b3 0x7F)
  = (b1 mod 2 ^ 7) * 2 ^ 14 + b2 * 2 ^ 7 + b3.
Proof.
  intros H1 H2 H3.
  change 0x7F with (Z.ones 7).
  rewrite !Z.land_ones by lia.
  rewrite (Z.mod_small b2), (Z.mod_small b3) by lia.
  rewrite !Z.shiftl_mul_pow2 by lia.
  rewrite (lor_high_low (b1 mod 2 ^ 7) (b2 * 2 ^ 7) 14) by lia.
  replace (b1 mod 2 ^ 7 * 2 ^ 14 + b2 * 2 ^ 7)
    with ((b1 mod 2 ^ 7 * 2 ^ 7 + b2) * 2 ^ 7) by ring.
  rewrite lor_high_low by lia.
  ring.
Qed.

Lemma encode_then_decode_16bit (addr head tail : Z) :
  0 <= addr < 2 ^ 16 ->
  decode_rego_response (head :: encode_register addr ++ [tail]) = Ok addr.
Proof.
  intros Haddr.
  rewrite encode_register_groups.
  cbn [app length Nat.ltb Nat.leb decode_rego_response getitem lookup
       list_lookup rbind].
  set (b1 := (addr / 2 ^ 14) mod 2 ^ 2).
  set (b2 := (addr / 2 ^ 7) mod 2 ^ 7).
  set (b3 := addr mod 2 ^ 7).
  assert (Hb1 : 0 <= b1 < 2 ^ 2) by (apply Z.mod_pos_bound; lia).
  assert (Hb2 : 0 <= b2 < 2 ^ 7) by (apply Z.mod_pos_bound; lia).
  assert (Hb3 : 0 <= b3 < 2 ^ 7) by (apply Z.mod_pos_bound; lia).
  rewrite reassemble_groups by lia.
  rewrite (Z.mod_small b1) by lia.
  assert (Hraw : b1 * 2 ^ 14 + b2 * 2 ^ 7 + b3 = addr).
  { subst b1 b2 b3. change (2 ^ 14) with 16384. change (2 ^ 7) with 128.
    change (2 ^ 2) with 4. change (2 ^ 16) with 65536 in Haddr.
    Z.div_mod_to_equations. lia. }
  change 0x10000 with (2 ^ 16).
  rewrite Hraw, land_pow2_small by lia.
  reflexivity.
Qed.

(** C1: for every register address in [0, 0x3FFF], the three bytes of
    [encode_register], with the top bit of each stripped and put together
    as [(b0 << 14) | (b1 << 7) | b2], give the address back; and
    [decode_rego_response], which does this to bytes 1 to 3 of a response,
    returns the address on any five-byte frame that carries them. *)
Theorem encode_register_roundtrip (addr head tail : Z) :
  0 <= addr <= 0x3FFF ->
  (exists b0 b1 b2,
      encode_register addr = [b0; b1; b2]
      /\ Z.lor (Z.lor (Z.shiftl (Z.land b0 0x7F) 14) (Z.shiftl (Z.land b1 0x7F) 7))
               (Z.land b2 0x7F) = addr)
  /\ decode_rego_response (head :: encode_register addr ++ [tail]) = Ok addr.
Proof.
  intros Haddr.
  assert (H16 : 0 <= addr < 2 ^ 16) by (change (2 ^ 16) with 65536; lia).
  pose proof (encode_then_decode_16bit addr head tail H16) as Hdec.
  split; [| exact Hdec].
  rewrite encode_register_groups.
  do 3 eexists. split; [reflexivity |].
  assert (Hb1 : 0 <= (addr / 2 ^ 14) mod 2 ^ 2 < 2 ^ 2) by (apply Z.mod_pos_bound; lia).
  assert (Hb2 : 0 <= (addr / 2 ^ 7) mod 2 ^ 7 < 2 ^ 7) by (apply Z.mod_pos_bound; lia).
  assert (Hb3 : 0 <= addr mod 2 ^ 7 < 2 ^ 7) by (apply Z.mod_pos_bound; lia).
  rewrite reassemble_groups by lia.
  rewrite (Z.mod_small ((addr / 2 ^ 14) mod 2 ^ 2)) by lia.
  change (2 ^ 14) with 16384. change (2 ^ 7) with 128. change (2 ^ 2) with 4.
  Z.div_mod_to_equations. lia.
Qed.

Lemma encode_register_roundtrip_witness :
  0 <= 0x0209 <= 0x3FFF
  /\ decode_rego_response (0x01 :: encode_register 0x0209 ++ [0x0D]) = Ok 0x0209.
Proof.
  split; [lia |].
  apply (encode_register_roundtrip 0x0209 0x01 0x0D). lia.
Defined.

(** ** Frames on the wire *)

Lemma encode_register_bounds (value : Z) :
  exists b0 b1 b2,
    encode_register value = [b0; b1; b2]
    /\ 0 <= b0 <= 0x03 /\ 0 <= b1 <= 0x7F /\ 0 <= b2 <= 0x7F.
Proof.
  rewrite encode_register_groups. do 3 eexists. split; [reflexivity |].
  pose proof (Z.mod_pos_bound (value / 2 ^ 14) (2 ^ 2)).
  pose proof (Z.mod_pos_bound (value / 2 ^ 7) (2 ^ 7)).
  pose proof (Z.mod_pos_bound value (2 ^ 7)).
  change (2 ^ 2) with 4 in *. change (2 ^ 7) with 128 in *. lia.
Qed.

Lemma lxor_below (a b k : Z) :
  0 <= k -> 0 <= a < 2 ^ k -> 0 <= b < 2 ^ k -> 0 <= Z.lxor a b < 2 ^ k.
Proof.
  intros Hk Ha Hb.
  assert (Hmod : Z.lxor a b = Z.lxor a b mod 2 ^ k).
  { apply Z.bits_inj'. intros n Hn.
    rewrite Z.testbit_mod_pow2 by lia.
    destruct (Z.ltb_spec n k) as [Hlt | Hge]; [reflexivity |].
    rewrite Z.lxor_spec, (testbit_small a k n), (testbit_small b k n) by lia.
    reflexivity. }
  rewrite Hmod. apply Z.mod_pos_bound. lia.
Qed.

Lemma bytes_ok (packet : list Z) :
  Forall (fun b => 0 <= b < 256) packet -> bytes packet = Ok packet.
Proof.
  intros Hall. unfold bytes.
  assert (Hfb : forallb is_byte packet = true).
  { apply forallb_forall. intros b Hb.
    rewrite Forall_forall in Hall. rewrite <- list_elem_of_In in Hb.
    specialize (Hall b Hb). unfold is_byte. lia. }
  rewrite Hfb. reflexivity.
Qed.

Lemma frame_of_bytes (address command r0 r1 r2 v0 v1 v2 : Z) :
  0 <= address < 256 -> 0 <= command < 256 ->
  0 <= r0 <= 0x7F -> 0 <= r1 <= 0x7F -> 0 <= r2 <= 0x7F ->
  0 <= v0 <= 0x7F -> 0 <= v1 <= 0x7F -> 0 <= v2 <= 0x7F ->
  bytes (frame_of address command [r0; r1; r2] [v0; v1; v2])
  = Ok (frame_of address command [r0; r1; r2] [v0; v1; v2])
  /\ seven_bit_clean (frame_of address command [r0; r1; r2] [v0; v1; v2]).
Proof.
  intros Ha Hc Hr0 Hr1 Hr2 Hv0 Hv1 Hv2.
  assert (Hsum : 0 <= calculate_checksum [address; command; r0; r1; r2; v0; v1; v2]
                 < 2 ^ 7).
  { cbn. rewrite Z.lxor_0_l. repeat apply lxor_below; change (2 ^ 7) with 128; lia. }
  change (2 ^ 7) with 128 in Hsum.
  split.
  - apply bytes_ok. cbn [frame_of app].
    all_bounded.
  - unfold seven_bit_clean. cbn.
    all_bounded.
Qed.

(** ** One exchange on the serial port *)

Lemma bind_ok {A B : Type} (m : IO A) (k : A -> IO B) (w : World) (a : A) (w' : World) :
  m w = (Ok a, w') -> bind m k w = k a w'.
Proof. intros Hm. unfold bind. rewrite Hm. reflexivity. Qed.

Lemma exchange_ok (packet : list Z) (size : nat) (w : World) :
  fault (serial w) = None ->
  bytes packet = Ok packet ->
  with_serial_lock (frame <- lift (bytes packet) ;; ser_write frame ;; ser_read size) w
  = (Ok (response_to packet size w), after_exchange packet size w).
Proof.
  intros Hfault Hbytes.
  destruct w as [[flt snt inb pmp] evs]. cbn in Hfault. subst flt.
  unfold with_serial_lock, bind, emit, lift, ser_write, ser_read,
    response_to, after_exchange.
  cbn. rewrite Hbytes. cbn. rewrite <- app_assoc. reflexivity.
Qed.

Lemma exchange_fault (packet : list Z) (size : nat) (w : World) (msg : string) :
  fault (serial w) = Some msg ->
  bytes packet = Ok packet ->
  with_serial_lock (frame <- lift (bytes packet) ;; ser_write frame ;; ser_read size) w
  = (Raise (SerialException msg),
     {| serial := serial w; events := events w ++ [LockAcquire; LockRelease] |}).
Proof.
  intros Hfault Hbytes.
  destruct w as [[flt snt inb pmp] evs]. cbn in Hfault. subst flt.
  unfold with_serial_lock, bind, emit, lift, ser_write, ser_read.
  cbn. rewrite Hbytes. cbn. rewrite <- app_assoc. reflexivity.
Qed.

Lemma build_request_frame (command register : Z) :
  0 <= command < 256 ->
  build_request PUMP_ADDRESS command register
  = Ok (frame_of PUMP_ADDRESS command (encode_register register) [0; 0; 0])
  /\ seven_bit_clean (frame_of PUMP_ADDRESS command (encode_register register) [0; 0; 0]).
Proof.
  intros Hc. unfold build_request.
  destruct (encode_register_bounds register) as (b0 & b1 & b2 & -> & H0 & H1 & H2).
  apply frame_of_bytes; first [wire_byte | lia].
Qed.

Lemma write_frame_bytes (command reg_addr value : Z) :
  0 <= command < 256 ->
  bytes (frame_of PUMP_ADDRESS command (encode_register reg_addr) (encode_register value))
  = Ok (frame_of PUMP_ADDRESS command (encode_register reg_addr) (encode_register value))
  /\ seven_bit_clean
       (frame_of PUMP_ADDRESS command (encode_register reg_addr) (encode_register value)).
Proof.
  intros Hc.
  destruct (encode_register_bounds reg_addr) as (r0 & r1 & r2 & -> & Hr0 & Hr1 & Hr2).
  destruct (encode_register_bounds value) as (v0 & v1 & v2 & -> & Hv0 & Hv1 & Hv2).
  apply frame_of_bytes; first [wire_byte | lia].
Qed.

(** The acknowledgement test changes nothing in the world. *)
Ltac after_acknowledged :=
  unfold acknowledged;
  destruct (length _ =? 1)%nat; [| reflexivity];
  unfold bind, lift; destruct (getitem _ 0); reflexivity.

(** The exchange [read_register] makes, on a working and on a failed port. *)
Lemma read_exchange_ok (command reg_addr : Z) (size : nat) (w : World) :
  fault (serial w) = None ->
  0 <= command < 256 ->
  with_serial_lock (request <- lift (build_request PUMP_ADDRESS command reg_addr) ;;
                    ser_write request ;; ser_read size) w
  = (Ok (response_to (read_frame command reg_addr) size w),
     after_exchange (read_frame command reg_addr) size w).
Proof.
  intros Hfault Hcommand.
  destruct (build_request_frame command reg_addr Hcommand) as [Hbuild _].
  apply (exchange_ok (read_frame command reg_addr) size w Hfault Hbuild).
Qed.

Lemma read_exchange_fault (command reg_addr : Z) (size : nat) (w : World) (msg : string) :
  fault (serial w) = Some msg ->
  0 <= command < 256 ->
  with_serial_lock (request <- lift (build_request PUMP_ADDRESS command reg_addr) ;;
                    ser_write request ;; ser_read size) w
  = (Raise (SerialException msg),
     {| serial := serial w; events := events w ++ [LockAcquire; LockRelease] |}).
Proof.
  intros Hfault Hcommand.
  destruct (build_request_frame command reg_addr Hcommand) as [Hbuild _].
  apply (exchange_fault (read_frame command reg_addr) size w msg Hfault Hbuild).
Qed.

(** What a write sends on a working port: one frame, inside the lock. *)
Lemma write_setting_sends (reg_addr value : Z) (w : World) :
  fault (serial w) = None ->
  let frame := frame_of PUMP_ADDRESS WRITE_SYSTEM_REGISTER
                 (encode_register reg_addr) (encode_register value) in
  snd (write_setting reg_addr value w) = after_exchange frame 1 w.
Proof.
  intros Hfault frame.
  destruct (write_frame_bytes WRITE_SYSTEM_REGISTER reg_addr value) as [Hb _];
    [wire_byte |].
  unfold write_setting, bind at 1.
  fold (frame_of PUMP_ADDRESS WRITE_SYSTEM_REGISTER
          (encode_register reg_addr) (encode_register value)).
  rewrite (exchange_ok _ 1 w Hfault Hb).
  after_acknowledged.
Qed.

Lemma press_key_sends (reg_addr : Z) (w : World) :
  fault (serial w) = None ->
  let frame := frame_of PUMP_ADDRESS WRITE_FRONT_PANEL
                 (encode_register reg_addr) (encode_register 1) in
  snd (press_key reg_addr w) = after_exchange frame 1 w.
Proof.
  intros Hfault frame.
  destruct (write_frame_bytes WRITE_FRONT_PANEL reg_addr 1) as [Hb _];
    [wire_byte |].
  unfold press_key, bind at 1.
  fold (frame_of PUMP_ADDRESS WRITE_FRONT_PANEL
          (encode_register reg_addr) (encode_register 1)).
  rewrite (exchange_ok _ 1 w Hfault Hb).
  after_acknowledged.
Qed.

Lemma keypanel_wheel : dict_getitem KEYPANEL_MAP "Wheel" = Ok 0x0044.
Proof. reflexivity. Qed.

Lemma wheel_value_cases (direction : string) (value : Z) :
  wheel_value direction = Some value ->
  (direction = "left"%string /\ value = 0x1FFFFF)
  \/ (direction = "right"%string /\ value = 0x000001).
Proof.
  unfold wheel_value.
  destruct (String.eqb_spec direction "left") as [-> | _].
  - intros [= <-]. left. split; reflexivity.
  - destruct (String.eqb_spec direction "right") as [-> | _]; [| discriminate].
    intros [= <-]. right. split; reflexivity.
Qed.

Lemma turn_wheel_sends (direction : string) (value : Z) (w : World) :
  wheel_value direction = Some value ->
  fault (serial w) = None ->
  snd (turn_wheel direction w)
  = after_exchange
      (frame_of PUMP_ADDRESS WRITE_FRONT_PANEL (encode_register 0x0044)
         (wheel_value_bytes value)) 1 w.
Proof.
  intros Hvalue Hfault.
  assert (Hb : bytes (frame_of PUMP_ADDRESS WRITE_FRONT_PANEL (encode_register 0x0044)
                        (wheel_value_bytes value))
               = Ok (frame_of PUMP_ADDRESS WRITE_FRONT_PANEL (encode_register 0x0044)
                       (wheel_value_bytes value))).
  { destruct (wheel_value_cases _ _ Hvalue) as [[_ ->] | [_ ->]]; reflexivity. }
  unfold turn_wheel, bind at 1, lift at 1.
  rewrite keypanel_wheel, Hvalue. unfold bind at 1.
  fold (frame_of PUMP_ADDRESS WRITE_FRONT_PANEL (encode_register 0x0044)
          (wheel_value_bytes value)).
  rewrite (exchange_ok _ 1 w Hfault Hb).
  after_acknowledged.
Qed.

Lemma build_request_clean (address command register : Z) (frame : list Z) :
  build_request address command register = Ok frame -> seven_bit_clean frame.
Proof.
  unfold build_request, bytes.
  destruct (encode_register_bounds register) as (b0 & b1 & b2 & -> & H0 & H1 & H2).
  destruct (forallb _ _); [| discriminate].
  intros [= <-].
  unfold seven_bit_clean. cbn.
  all_bounded.
Qed.

(** C9: whatever integer is encoded, a register address or a value, the
    three bytes of [encode_register] have the high bit clear: the first is
    at most 0x03 and the other two at most 0x7F.  So the register and value
    groups of every frame [build_request] makes, and of the frame
    [write_setting] and [press_key] put on the wire, are 7-bit clean. *)
Theorem request_groups_7bit_clean (reg_addr value : Z) (w : World) :
  fault (serial w) = None ->
  (exists b0 b1 b2,
      encode_register value = [b0; b1; b2]
      /\ (0 <= b0 <= 0x03 /\ 0 <= b1 <= 0x7F /\ 0 <= b2 <= 0x7F)
      /\ Forall (fun b => Z.land b 0x80 = 0) [b0; b1; b2])
  /\ (forall address command frame,
         build_request address command reg_addr = Ok frame -> seven_bit_clean frame)
  /\ (exists frame,
         sent (serial (snd (write_setting reg_addr value w))) = sent (serial w) ++ [frame]
         /\ seven_bit_clean frame)
  /\ (exists frame,
         sent (serial (snd (press_key reg_addr w))) = sent (serial w) ++ [frame]
         /\ seven_bit_clean frame)
  /\ (forall direction sentinel,
         wheel_value direction = Some sentinel ->
         exists frame,
           sent (serial (snd (turn_wheel direction w))) = sent (serial w) ++ [frame]
           /\ seven_bit_clean frame).
Proof.
  intros Hfault. repeat split.
  - destruct (encode_register_bounds value) as (b0 & b1 & b2 & Heq & H0 & H1 & H2).
    exists b0, b1, b2. repeat split; try lia; [exact Heq |].
    change 0x80 with (2 ^ 7).
    repeat (apply Forall_cons; split;
            [apply land_pow2_small; change (2 ^ 7) with 128; lia |]).
    apply Forall_nil_2.
  - intros address command frame. apply build_request_clean.
  - eexists. rewrite (write_setting_sends reg_addr value w Hfault).
    split; [reflexivity |].
    apply write_frame_bytes. wire_byte.
  - eexists. rewrite (press_key_sends reg_addr w Hfault).
    split; [reflexivity |].
    apply write_frame_bytes. wire_byte.
  - intros direction sentinel Hsentinel.
    eexists. rewrite (turn_wheel_sends direction sentinel w Hsentinel Hfault).
    split; [reflexivity |].
    destruct (wheel_value_cases _ _ Hsentinel) as [[_ ->] | [_ ->]];
      unfold seven_bit_clean;
      match goal with
      | |- Forall _ ?groups =>
          let groups' := eval vm_compute in groups in change groups with groups'
      end;
      all_bounded.
Qed.

Lemma request_groups_7bit_clean_witness :
  fault (serial (fresh_world pump_all_on)) = None
  /\ sent (serial (snd (write_setting 0x0021 (-215) (fresh_world pump_all_on))))
     = [[0x81; 0x03; 0x00; 0x00; 0x21; 0x03; 0x7E; 0x29; 0x75]]
  /\ exists frame,
      sent (serial (snd (write_setting 0x0021 (-215) (fresh_world pump_all_on))))
      = sent (serial (fresh_world pump_all_on)) ++ [frame]
      /\ seven_bit_clean frame.
Proof.
  split; [reflexivity |]. split; [reflexivity |].
  exact (proj1 (proj2 (proj2
           (request_groups_7bit_clean 0x0021 (-215) (fresh_world pump_all_on)
              eq_refl)))).
Defined.

(** ** Checksum *)

Lemma xor_fold_permutation (l l' : list Z) :
  l ≡ₚ l' -> forall acc, fold_left Z.lxor l acc = fold_left Z.lxor l' acc.
Proof.
  induction 1 as [| x l l' _ IH | x y l | l l' l'' _ IH1 _ IH2]; intros acc; cbn.
  - reflexivity.
  - apply IH.
  - f_equal. rewrite !Z.lxor_assoc. f_equal. apply Z.lxor_comm.
  - rewrite IH1. apply IH2.
Qed.

Lemma calculate_checksum_fold (packet : list Z) :
  calculate_checksum packet = fold_left Z.lxor (slice 2 8 packet) 0.
Proof. reflexivity. Qed.

(** C7: on a nine-byte packet [calculate_checksum] is the XOR of the bytes
    at positions 2 to 7; it does not change when those six bytes are
    permuted; and a frame made by [build_request] has nine bytes, the last
    of which is the XOR of its register and value bytes. *)
Theorem checksum_xor_of_groups :
  (forall a0 a1 a2 a3 a4 a5 a6 a7 a8 : Z,
      calculate_checksum [a0; a1; a2; a3; a4; a5; a6; a7; a8]
      = Z.lxor (Z.lxor (Z.lxor (Z.lxor (Z.lxor a2 a3) a4) a5) a6) a7)
  /\ (forall packet packet' : list Z,
         length packet = 9%nat -> length packet' = 9%nat ->
         slice 2 8 packet ≡ₚ slice 2 8 packet' ->
         calculate_checksum packet = calculate_checksum packet')
  /\ (forall (address command register : Z) (frame : list Z),
         build_request address command register = Ok frame ->
         length frame = 9%nat
         /\ slice 2 8 frame = encode_register register ++ [0; 0; 0]
         /\ frame !! 8%nat
            = Some (fold_left Z.lxor (encode_register register ++ [0; 0; 0]) 0)
         /\ frame !! 8%nat = Some (calculate_checksum frame)).
Proof.
  split; [| split].
  - intros. cbn. rewrite Z.lxor_0_l. reflexivity.
  - intros packet packet' _ _ Hperm.
    rewrite !calculate_checksum_fold. apply xor_fold_permutation, Hperm.
  - intros address command register frame.
    unfold build_request, bytes.
    destruct (forallb _ _); [| discriminate].
    intros [= <-]. repeat split.
Qed.

Lemma checksum_xor_of_groups_witness :
  (length [0x81; 0x02; 0x00; 0x04; 0x09; 0x00; 0x00; 0x00; 0x0D] = 9%nat
   /\ length [0x81; 0x02; 0x04; 0x00; 0x09; 0x00; 0x00; 0x00; 0x00] = 9%nat
   /\ calculate_checksum [0x81; 0x02; 0x00; 0x04; 0x09; 0x00; 0x00; 0x00; 0x0D]
      = calculate_checksum [0x81; 0x02; 0x04; 0x00; 0x09; 0x00; 0x00; 0x00; 0x00])
  /\ (build_request PUMP_ADDRESS READ_SYSTEM_REGISTER 0x0209
      = Ok [0x81; 0x02; 0x00; 0x04; 0x09; 0x00; 0x00; 0x00; 0x0D]
      /\ [0x81; 0x02; 0x00; 0x04; 0x09; 0x00; 0x00; 0x00; 0x0D] !! 8%nat
         = Some (calculate_checksum
                   [0x81; 0x02; 0x00; 0x04; 0x09; 0x00; 0x00; 0x00; 0x0D])).
Proof.
  destruct checksum_xor_of_groups as (_ & Hperm & Hframe).
  split.
  - split; [reflexivity |]. split; [reflexivity |].
    apply Hperm; [reflexivity | reflexivity |].
    cbn. apply perm_swap.
  - split; [reflexivity |].
    apply (Hframe PUMP_ADDRESS READ_SYSTEM_REGISTER 0x0209). reflexivity.
Defined.

(** ** The wheel *)

(** C3, as amended: for both directions the value bytes [turn_wheel] puts
    on the wire are [(v >> 18) & 0x03], [(v >> 11) & 0x7F] and [v & 0x7F]
    of the sentinel [v]: the first group keeps two bits and the third byte
    is the low seven bits of the sentinel, not a group shifted by 4.  They
    are 0x03, 0x7F, 0x7F for 'left' and 0x00, 0x00, 0x01 for 'right'. *)
Theorem turn_wheel_value_bytes (direction : string) (value : Z) (w : World) :
  wheel_value direction = Some value ->
  fault (serial w) = None ->
  exists frame,
    sent (serial (snd (turn_wheel direction w))) = sent (serial w) ++ [frame]
    /\ slice 0 5 frame = [PUMP_ADDRESS; WRITE_FRONT_PANEL] ++ encode_register 0x0044
    /\ slice 5 8 frame
       = [ Z.land (Z.shiftr value 18) 0x03;
           Z.land (Z.shiftr value 11) 0x7F;
           Z.land value 0x7F ]
    /\ slice 5 8 frame
       = (if String.eqb direction "left" then [0x03; 0x7F; 0x7F] else [0x00; 0x00; 0x01]).
Proof.
  intros Hvalue Hfault.
  eexists. rewrite (turn_wheel_sends direction value w Hvalue Hfault).
  split; [reflexivity |].
  destruct (wheel_value_cases _ _ Hvalue) as [[-> ->] | [-> ->]];
    repeat split; reflexivity.
Qed.

Lemma turn_wheel_value_bytes_witness :
  wheel_value "left" = Some 0x1FFFFF
  /\ fault (serial (fresh_world pump_all_on)) = None
  /\ sent (serial (snd (turn_wheel "left" (fresh_world pump_all_on))))
     = [[0x81; 0x01; 0x00; 0x00; 0x44; 0x03; 0x7F; 0x7F; 0x47]]
  /\ exists frame,
      sent (serial (snd (turn_wheel "left" (fresh_world pump_all_on))))
      = sent (serial (fresh_world pump_all_on)) ++ [frame]
      /\ slice 5 8 frame = [0x03; 0x7F; 0x7F].
Proof.
  split; [reflexivity |]. split; [reflexivity |]. split; [reflexivity |].
  destruct (turn_wheel_value_bytes "left" 0x1FFFFF (fresh_world pump_all_on)
              eq_refl eq_refl) as (frame & Hsent & _ & _ & Hbytes).
  exists frame. split; [exact Hsent | exact Hbytes].
Defined.

(** C3 as stated fails: the value bytes are not the sentinel shifted by
    18, 11 and 4 and masked to 7 bits.  For 'right' the wire carries
    0x00, 0x00, 0x01 where the shifted groups would be 0x00, 0x00, 0x00
    (and for 'left' 0x03, 0x7F, 0x7F instead of 0x07, 0x7F, 0x7F). *)
Lemma turn_wheel_value_bytes_not_as_specified :
  ~ (forall (direction : string) (value : Z) (w : World),
        wheel_value direction = Some value ->
        fault (serial w) = None ->
        exists frame,
          sent (serial (snd (turn_wheel direction w))) = sent (serial w) ++ [frame]
          /\ slice 5 8 frame = wheel_value_bytes_as_specified value).
Proof.
  intros Hclaim.
  destruct (Hclaim "right"%string 0x000001 (fresh_world pump_all_on) eq_refl eq_refl)
    as (frame & Hsent & Hbytes).
  cbn in Hsent. injection Hsent as <-. discriminate Hbytes.
Qed.

(** C10: for a direction other than 'left' and 'right', [turn_wheel]
    returns [False] and the only thing it does is log the error: the lock
    is not acquired and the port is left as it was, nothing written. *)
Theorem turn_wheel_invalid_direction (direction : string) (w : World) :
  direction <> "left"%string ->
  direction <> "right"%string ->
  turn_wheel direction w
  = (Ok false,
     {| serial := serial w;
        events := events w
                  ++ [Log ERROR ("Invalid direction for wheel: " +:+ direction)] |})
  /\ serial (snd (turn_wheel direction w)) = serial w
  /\ sent (serial (snd (turn_wheel direction w))) = sent (serial w)
  /\ (forall e, e ∈ events (snd (turn_wheel direction w)) ->
                e ∈ events w \/ e = Log ERROR ("Invalid direction for wheel: " +:+ direction)).
Proof.
  intros Hleft Hright.
  assert (Hnone : wheel_value direction = None).
  { unfold wheel_value.
    destruct (String.eqb_spec direction "left"); [contradiction |].
    destruct (String.eqb_spec direction "right"); [contradiction | reflexivity]. }
  assert (Hrun : turn_wheel direction w
                 = (Ok false,
                    {| serial := serial w;
                       events := events w
                         ++ [Log ERROR ("Invalid direction for wheel: " +:+ direction)] |})).
  { unfold turn_wheel, bind at 1, lift at 1.
    rewrite keypanel_wheel, Hnone. reflexivity. }
  rewrite Hrun. cbn. repeat split.
  intros e He. apply elem_of_app in He as [He | He]; [left; exact He |].
  right. apply list_elem_of_singleton in He. exact He.
Qed.

Lemma turn_wheel_invalid_direction_witness :
  "up"%string <> "left"%string
  /\ "up"%string <> "right"%string
  /\ turn_wheel "up" (fresh_world pump_all_on)
     = (Ok false,
        {| serial := fresh_port pump_all_on;
           events := [Log ERROR "Invalid direction for wheel: up"] |}).
Proof.
  split; [discriminate |]. split; [discriminate |].
  exact (proj1 (turn_wheel_invalid_direction "up" (fresh_world pump_all_on)
                  ltac:(discriminate) ltac:(discriminate))).
Defined.

(** ** Reads that yield no value *)

Lemma read_register_absent {A : Type} (reg_addr command : Z) (expected_length : nat)
  (decode_func : list Z -> result A) (w : World) (r0 r1 r2 r3 r4 : Z) :
  fault (serial w) = None ->
  0 <= command < 256 ->
  response_to (read_frame command reg_addr) expected_length w = [r0; r1; r2; r3; r4] ->
  unusable expected_length decode_func r0 r1 r2 r3 r4 ->
  absent_after (read_frame command reg_addr) expected_length w
    (read_register reg_addr command expected_length decode_func w).
Proof.
  intros Hfault Hcommand Hresponse Hbad.
  unfold read_register, bind at 1.
  rewrite (read_exchange_ok command reg_addr expected_length w Hfault Hcommand),
    Hresponse.
  set (w1 := after_exchange (read_frame command reg_addr) expected_length w).
  unfold absent_after.
  cbn [length].
  destruct (Nat.eqb_spec 5 expected_length) as [<- | Hlen].
  2: { cbn [negb]. repeat split. eexists. reflexivity. }
  cbn [negb].
  rewrite (bind_ok _ _ w1 r0 w1) by reflexivity.
  destruct (Z.eqb_spec r0 PC_ADDRESS) as [-> | Haddr].
  2: { cbn [negb]. repeat split. eexists. reflexivity. }
  cbn [negb Nat.eqb].
  rewrite (bind_ok _ _ w1 (negb (Z.lxor (Z.lxor r1 r2) r3 =? r4)) w1) by reflexivity.
  destruct (Z.eqb_spec (Z.lxor (Z.lxor r1 r2) r3) r4) as [Hsum | Hsum].
  2: { cbn [negb]. repeat split. eexists. reflexivity. }
  cbn [negb].
  destruct Hbad as [Hbad | [Hbad | [Hbad | [msg Hdecode]]]]; try contradiction.
  unfold try_except, bind at 1, lift at 1. rewrite Hdecode.
  cbn [is_ValueError]. repeat split. eexists. reflexivity.
Qed.

(** A five-byte frame never makes [decode_rego_response] raise. *)
Lemma decode_rego_response_total (r0 r1 r2 r3 r4 : Z) :
  exists value, decode_rego_response [r0; r1; r2; r3; r4] = Ok value.
Proof.
  unfold decode_rego_response.
  change (length [r0; r1; r2; r3; r4] <? 5)%nat with false. cbv beta iota.
  change (getitem [r0; r1; r2; r3; r4] 1) with (Ok r1).
  change (getitem [r0; r1; r2; r3; r4] 2) with (Ok r2).
  change (getitem [r0; r1; r2; r3; r4] 3) with (Ok r3).
  unfold rbind. eexists. reflexivity.
Qed.

(** C2: a five-byte response with a wrong checksum (the XOR of bytes 1 to 3
    is not byte 4), or whose first byte is not the echo address 0x01, or
    whose length is not the expected one, or on which the decoder raises
    its decode error, makes [read_register] return [None]: no exception
    leaves the function, and a warning is logged.  The same holds of
    [read_sensor], [read_led_state] and [read_setting]. *)
Theorem read_register_absent_on_bad_response :
  (forall (A : Type) (reg_addr command : Z) (expected_length : nat)
          (decode_func : list Z -> result A) (w : World) (r0 r1 r2 r3 r4 : Z),
      fault (serial w) = None ->
      0 <= command < 256 ->
      response_to (read_frame command reg_addr) expected_length w = [r0; r1; r2; r3; r4] ->
      unusable expected_length decode_func r0 r1 r2 r3 r4 ->
      absent_after (read_frame command reg_addr) expected_length w
        (read_register reg_addr command expected_length decode_func w))
  /\ (forall (command : Z) (reader : Z -> IO (option Z)) (reg_addr : Z) (w : World)
             (r0 r1 r2 r3 r4 : Z),
         (command, reader) ∈ five_byte_readers ->
         fault (serial w) = None ->
         response_to (read_frame command reg_addr) 5 w = [r0; r1; r2; r3; r4] ->
         r0 <> PC_ADDRESS \/ Z.lxor (Z.lxor r1 r2) r3 <> r4 ->
         absent_after (read_frame command reg_addr) 5 w (reader reg_addr w)).
Proof.
  split.
  - intros A. apply read_register_absent.
  - intros command reader reg_addr w r0 r1 r2 r3 r4 Hin Hfault Hresponse Hbad.
    assert (Hun : unusable 5 decode_rego_response r0 r1 r2 r3 r4).
    { unfold unusable. destruct Hbad as [Hbad | Hbad]; [right; left | right; right; left];
        exact Hbad. }
    assert (Hreader : reader reg_addr w
                      = read_register reg_addr command 5 decode_rego_response w
                      /\ 0 <= command < 256).
    { unfold five_byte_readers in Hin.
      repeat (apply elem_of_cons in Hin as [Heq | Hin];
              [ injection Heq as -> ->;
                split; [reflexivity | split; [discriminate | reflexivity]] |]).
      apply elem_of_nil in Hin. contradiction. }
    destruct Hreader as [-> Hcommand].
    exact (read_register_absent reg_addr command 5 decode_rego_response w
             r0 r1 r2 r3 r4 Hfault Hcommand Hresponse Hun).
Qed.

Lemma read_register_absent_on_bad_response_witness :
  (READ_SYSTEM_REGISTER, read_sensor) ∈ five_byte_readers
  /\ fault (serial (fresh_world pump_corrupt)) = None
  /\ response_to (read_frame READ_SYSTEM_REGISTER 0x0209) 5 (fresh_world pump_corrupt)
     = [0x01; 0x00; 0x01; 0x7B; 0x00]
  /\ Z.lxor (Z.lxor 0x00 0x01) 0x7B <> 0x00
  /\ fst (read_sensor 0x0209 (fresh_world pump_corrupt)) = Ok None.
Proof.
  assert (Hin : (READ_SYSTEM_REGISTER, read_sensor) ∈ five_byte_readers)
    by (apply list_elem_of_here).
  assert (Hsum : Z.lxor (Z.lxor 0x00 0x01) 0x7B <> 0x00) by discriminate.
  split; [exact Hin |]. split; [reflexivity |]. split; [reflexivity |].
  split; [exact Hsum |].
  exact (proj1 (proj2 read_register_absent_on_bad_response
                  READ_SYSTEM_REGISTER read_sensor 0x0209 (fresh_world pump_corrupt)
                  0x01 0x00 0x01 0x7B 0x00 Hin eq_refl eq_refl (or_intror Hsum))).
Defined.

(** ** The display *)

Lemma append_nil_r (s : string) : s +:+ EmptyString = s.
Proof.
  induction s as [| c s IH]; [reflexivity |].
  change (String c s +:+ EmptyString) with (String c (s +:+ EmptyString)).
  f_equal. exact IH.
Qed.

Lemma append_assoc (s t u : string) : (s +:+ t) +:+ u = s +:+ (t +:+ u).
Proof.
  induction s as [| c s IH]; [reflexivity |].
  change (String c ((s +:+ t) +:+ u) = String c (s +:+ (t +:+ u))).
  f_equal. exact IH.
Qed.

Lemma pair_code_range (high low : Z) : 0 <= pair_code high low < 256.
Proof.
  unfold pair_code. change 0x0F with (Z.ones 4).
  rewrite !Z.land_ones, Z.shiftl_mul_pow2 by lia.
  pose proof (Z.mod_pos_bound high (2 ^ 4) ltac:(lia)) as Hhigh.
  pose proof (Z.mod_pos_bound low (2 ^ 4) ltac:(lia)) as Hlow.
  rewrite lor_high_low by lia. lia.
Qed.

(** What the three lines after [chr] make of each of the 256 codes. *)
Lemma chr_glyph (code : Z) :
  0 <= code < 256 ->
  exists char,
    chr code = Ok char
    /\ (let char := if String.eqb char "ÿ" then private_use_F0A2 else char in
        if String.eqb char "ß" then "°"%string else char)
       = glyph code.
Proof.
  intros Hcode.
  assert (Hall : List.forallb
                   (fun n =>
                      match chr (Z.of_nat n) with
                      | Ok char =>
                          String.eqb
                            (let char := if String.eqb char "ÿ"
                                         then private_use_F0A2 else char in
                             if String.eqb char "ß" then "°"%string else char)
                            (glyph (Z.of_nat n))
                      | Raise _ => false
                      end) (seq 0 256) = true) by (vm_compute; reflexivity).
  rewrite List.forallb_forall in Hall.
  specialize (Hall (Z.to_nat code)). rewrite Z2Nat.id in Hall by lia.
  destruct (chr code) as [char | e].
  - exists char. split; [reflexivity |].
    apply String.eqb_eq, Hall, in_seq. lia.
  - discriminate Hall. apply in_seq. lia.
Qed.

Lemma display_step_glyph (data : list Z) (text : string) (i : nat) (high low : Z) :
  data !! i = Some high ->
  data !! (i + 1)%nat = Some low ->
  display_step data text i = Ok (text +:+ glyph (pair_code high low)).
Proof.
  intros Hhigh Hlow. unfold display_step, getitem.
  rewrite Hhigh, Hlow. cbn [rbind].
  fold (pair_code high low).
  destruct (chr_glyph (pair_code high low) (pair_code_range high low))
    as (char & -> & <-).
  reflexivity.
Qed.

Lemma range_step2_S (start count : nat) :
  range_step2 start (S count) = start :: range_step2 (start + 2) count.
Proof.
  unfold range_step2. cbn [seq map]. f_equal; [lia |].
  rewrite <- seq_shift, map_map. apply map_ext. intros k. lia.
Qed.

Lemma slice_two (data : list Z) (start count : nat) (high low : Z) :
  data !! start = Some high ->
  data !! (start + 1)%nat = Some low ->
  slice start (start + 2 * S count) data
  = high :: low :: slice (start + 2) (start + 2 + 2 * count) data.
Proof.
  intros Hhigh Hlow. unfold slice.
  replace (start + 2 * S count - start)%nat with (S (S (2 * count))) by lia.
  replace (start + 2 + 2 * count - (start + 2))%nat with (2 * count)%nat by lia.
  rewrite (drop_S data high start Hhigh).
  replace (start + 1)%nat with (S start) in Hlow by lia.
  rewrite (drop_S data low (S start) Hlow).
  replace (start + 2)%nat with (S (S start)) by lia.
  reflexivity.
Qed.

(** The loop of [decode_display_response] appends one glyph per pair. *)
Lemma display_loop (data : list Z) (count : nat) :
  forall (start : nat) (text : string),
    (start + 2 * count <= length data)%nat ->
    fold_left (fun acc i => text <-! acc; display_step data text i)
              (range_step2 start count) (Ok text)
    = Ok (text +:+ join (pair_glyphs (slice start (start + 2 * count) data))).
Proof.
  induction count as [| count IH]; intros start text Hlen.
  - unfold slice. replace (start + 2 * 0 - start)%nat with 0%nat by lia.
    cbn. rewrite append_nil_r. reflexivity.
  - destruct (lookup_lt_is_Some_2 data start) as [high Hhigh]; [lia |].
    destruct (lookup_lt_is_Some_2 data (start + 1)) as [low Hlow]; [lia |].
    rewrite range_step2_S. cbn [fold_left rbind].
    rewrite (display_step_glyph data text start high low Hhigh Hlow).
    rewrite IH by lia.
    rewrite (slice_two data start count high low Hhigh Hlow).
    cbn [pair_glyphs join fold_right].
    rewrite append_assoc. reflexivity.
Qed.

Lemma decode_display_response_text (data : list Z) :
  length data = 42%nat ->
  data !! 0%nat = Some PC_ADDRESS ->
  decode_display_response data = Ok (strip (display_text data)).
Proof.
  intros Hlen Hhead. unfold decode_display_response, getitem.
  rewrite Hlen, Hhead. cbn [Nat.eqb negb rbind Z.eqb PC_ADDRESS Pos.eqb].
  rewrite (display_loop data 20 1 EmptyString) by lia.
  reflexivity.
Qed.

Lemma decode_display_response_length (data : list Z) :
  length data <> 42%nat ->
  decode_display_response data = Raise (ValueError "Invalid display response length").
Proof.
  intros Hlen. unfold decode_display_response.
  destruct (Nat.eqb_spec (length data) 42%nat); [contradiction | reflexivity].
Qed.

Lemma decode_display_response_address (data : list Z) :
  length data = 42%nat ->
  data !! 0%nat <> Some PC_ADDRESS ->
  decode_display_response data
  = Raise (ValueError "Unexpected display response address").
Proof.
  intros Hlen Hhead. unfold decode_display_response, getitem.
  rewrite Hlen. cbn [Nat.eqb negb].
  destruct data as [| d0 rest]; [discriminate Hlen |].
  cbn [lookup list_lookup rbind].
  destruct (Z.eqb_spec d0 PC_ADDRESS) as [-> | Hne]; [| reflexivity].
  contradiction Hhead. reflexivity.
Qed.

(** Pairs of bytes whose low nibbles are all 0xF are fillers. *)
Lemma filler_pairs (body : list Z) :
  Forall (fun b => Z.land b 0x0F = 0x0F) body ->
  pair_glyphs body = repeat private_use_F0A2 (Nat.div2 (length body))
  /\ forall b, Z.land b 0x0F = 0x0F ->
               pair_glyphs (b :: body)
               = repeat private_use_F0A2 (Nat.div2 (S (length body))).
Proof.
  induction body as [| low body IH]; intros Hall.
  - split; [reflexivity | intros b _; reflexivity].
  - apply Forall_cons in Hall as [Hlow Hall].
    destruct (IH Hall) as [Hrest Hodd].
    split; [apply Hodd, Hlow |].
    intros high Hhigh. cbn [pair_glyphs length Nat.div2 repeat].
    rewrite Hrest. unfold pair_code. rewrite Hhigh, Hlow.
    reflexivity.
Qed.

(** C6, as amended: on a well-formed 42-byte display response (byte 0 is
    the echo address 0x01) [decode_display_response] makes one character
    per pair of low nibbles at offsets 1 to 40, puts the one character
    U+F0A2 (not the empty string) in place of the filler 0xFF and the
    degree sign in place of 0xDF, and trims whitespace at both ends,
    leading as well as trailing.  An all-filler response decodes to twenty
    U+F0A2, a response showing HELLO followed by filler decodes to HELLO
    followed by fifteen U+F0A2, and a row showing HELLO between spaces
    decodes to HELLO. *)
Theorem decode_display_response_trimmed :
  (forall data : list Z,
      length data = 42%nat ->
      data !! 0%nat = Some PC_ADDRESS ->
      decode_display_response data = Ok (strip (display_text data)))
  /\ (glyph 0xFF = private_use_F0A2
      /\ chars private_use_F0A2 = [private_use_F0A2]
      /\ code_point private_use_F0A2 = 0xF0A2
      /\ isspace private_use_F0A2 = false
      /\ glyph 0xDF = "°"%string)
  /\ (forall data : list Z,
         length data = 42%nat ->
         data !! 0%nat = Some PC_ADDRESS ->
         Forall (fun b => Z.land b 0x0F = 0x0F) (slice 1 41 data) ->
         decode_display_response data = Ok (copies 20 private_use_F0A2))
  /\ decode_display_response (display_response (cells "HELLO"))
     = Ok ("HELLO" +:+ copies 15 private_use_F0A2)
  /\ decode_display_response (display_response (cells "  HELLO             "))
     = Ok "HELLO"%string.
Proof.
  split; [exact decode_display_response_text |].
  split; [repeat split |].
  split; [| split; vm_compute; reflexivity].
  intros data Hlen Hhead Hfill.
  rewrite (decode_display_response_text data Hlen Hhead).
  unfold display_text.
  destruct (filler_pairs _ Hfill) as [-> _].
  assert (Hbody : length (slice 1 41 data) = 40%nat).
  { unfold slice. rewrite length_take, length_drop. lia. }
  rewrite Hbody. vm_compute. reflexivity.
Qed.

Lemma decode_display_response_trimmed_witness :
  length (display_response (cells "  +21.5")) = 42%nat
  /\ display_response (cells "  +21.5") !! 0%nat = Some PC_ADDRESS
  /\ decode_display_response (display_response (cells "  +21.5"))
     = Ok ("+21.5" +:+ copies 13 private_use_F0A2).
Proof.
  split; [reflexivity |]. split; [reflexivity |].
  exact (proj1 decode_display_response_trimmed (display_response (cells "  +21.5"))
           eq_refl eq_refl).
Defined.

(** C6 as stated fails.  The filler is not dropped: an all-filler
    response does not decode to the empty string, and HELLO followed by
    filler does not decode to HELLO.  Nor is the text trimmed at its end
    only: a row that starts with a space loses it. *)
Lemma decode_display_response_not_as_specified :
  ~ (forall data : list Z,
        length data = 42%nat ->
        data !! 0%nat = Some PC_ADDRESS ->
        decode_display_response data = Ok (rstrip (display_text_as_specified data)))
  /\ decode_display_response (display_response []) <> Ok EmptyString
  /\ decode_display_response (display_response (cells "HELLO")) <> Ok "HELLO"%string
  /\ ~ (forall data : list Z,
           length data = 42%nat ->
           data !! 0%nat = Some PC_ADDRESS ->
           decode_display_response data = Ok (rstrip (display_text data))).
Proof.
  split; [| split; [| split]].
  - intros Hclaim.
    specialize (Hclaim (display_response []) eq_refl eq_refl).
    vm_compute in Hclaim. discriminate Hclaim.
  - vm_compute. discriminate.
  - vm_compute. discriminate.
  - intros Hclaim.
    specialize (Hclaim (display_response (cells " HI                 ")) eq_refl eq_refl).
    vm_compute in Hclaim. discriminate Hclaim.
Qed.

Example display_leading_space :
  decode_display_response (display_response (cells " HI                 "))
  = Ok "HI"%string
  /\ rstrip (display_text (display_response (cells " HI                 ")))
     = " HI"%string.
Proof. split; vm_compute; reflexivity. Qed.

(** ** Inbound commands with a payload that is not an integer *)

(** X19: a payload that is text but not an integer literal ([int] raises
    [ValueError] on it) is logged and dropped, whatever the topic: the
    handler returns normally and the port is untouched. *)
Lemma on_mqtt_message_ignores_text
  (payload_decode : list Z -> result string) (int_of_str : string -> result Z)
  (topic : string) (msg_payload : list Z) (payload_raw msg : string) (w : World) :
  payload_decode msg_payload = Ok payload_raw ->
  int_of_str payload_raw = Raise (ValueError msg) ->
  on_mqtt_message payload_decode int_of_str topic msg_payload w
  = (Ok tt,
     {| serial := serial w;
        events := events w ++ [Log WARNING ("Ignores invalid payload: " +:+ payload_raw)] |}).
Proof.
  intros Hdecode Hint. unfold on_mqtt_message, bind, lift.
  rewrite Hdecode, Hint. reflexivity.
Qed.

Lemma on_mqtt_message_ignores_text_witness :
  Builtins.utf8_decode (Builtins.bytes_of_text "on") = Ok "on"%string
  /\ Builtins.int_literal "on"
     = Raise (ValueError "invalid literal for int() with base 10: 'on'")
  /\ on_mqtt_message Builtins.utf8_decode Builtins.int_literal
       "rego600/set/key/2" (Builtins.bytes_of_text "on") (fresh_world pump_all_on)
     = (Ok tt,
        {| serial := fresh_port pump_all_on;
           events := [Log WARNING "Ignores invalid payload: on"] |}).
Proof.
  split; [reflexivity |]. split; [reflexivity |].
  exact (on_mqtt_message_ignores_text Builtins.utf8_decode Builtins.int_literal
           "rego600/set/key/2" (Builtins.bytes_of_text "on") "on" _
           (fresh_world pump_all_on) eq_refl eq_refl).
Defined.

(** C8 at a payload that is not UTF-8: [msg.payload.decode()] runs before
    the [try] and its [UnicodeDecodeError] leaves the handler; nothing is
    logged and nothing reaches the port. *)
Theorem on_mqtt_message_undecodable_payload
  (payload_decode : list Z -> result string) (int_of_str : string -> result Z)
  (topic : string) (msg_payload : list Z) (msg : string) (w : World) :
  payload_decode msg_payload = Raise (UnicodeDecodeError msg) ->
  on_mqtt_message payload_decode int_of_str topic msg_payload w
  = (Raise (UnicodeDecodeError msg), w).
Proof.
  intros Hdecode. unfold on_mqtt_message, bind, lift. rewrite Hdecode.
  reflexivity.
Qed.

Lemma on_mqtt_message_undecodable_payload_witness :
  Builtins.utf8_decode [0xFF]
  = Raise (UnicodeDecodeError "'utf-8' codec can't decode bytes")
  /\ on_mqtt_message Builtins.utf8_decode Builtins.int_literal
       "rego600/set/key/2" [0xFF] (fresh_world pump_all_on)
     = (Raise (UnicodeDecodeError "'utf-8' codec can't decode bytes"),
        fresh_world pump_all_on).
Proof.
  split; [reflexivity |].
  exact (on_mqtt_message_undecodable_payload Builtins.utf8_decode Builtins.int_literal
           "rego600/set/key/2" [0xFF] _ (fresh_world pump_all_on) eq_refl).
Defined.

Example on_mqtt_message_writes_setting :
  on_mqtt_message Builtins.utf8_decode Builtins.int_literal
    "rego600/set/setting/indoor_temp_setting" (Builtins.bytes_of_text "215")
    (fresh_world pump_all_on)
  = (Ok tt,
     {| serial := {| fault := None;
                     sent := [[0x81; 0x03; 0x00; 0x00; 0x21; 0x00; 0x01; 0x57; 0x77]];
                     inbound := [];
                     pump := pump_all_on |};
        events := [LockAcquire; LockRelease;
                   Log INFO "Updated setting Indoor temp setting → 215"] |}).
Proof. reflexivity. Qed.

(** ** Instantaneous power *)

Lemma binary_sensor_map_14_16 (PUMP_SIZE_KW : Z) :
  PUMP_SIZE_KW = 14 \/ PUMP_SIZE_KW = 16 ->
  dict_getitem (BINARY_SENSOR_MAP PUMP_SIZE_KW) "Compressor" = Ok 0x01FE
  /\ dict_getitem (BINARY_SENSOR_MAP PUMP_SIZE_KW) "Add heat 3kw"
     = Raise (KeyError "Add heat 3kw")
  /\ dict_getitem (BINARY_SENSOR_MAP PUMP_SIZE_KW) "Add heat 5kw" = Ok 0x01FF
  /\ dict_getitem (BINARY_SENSOR_MAP PUMP_SIZE_KW) "Add heat 10kw" = Ok 0x0200.
Proof. intros [-> | ->]; repeat split; reflexivity. Qed.

Lemma filter_publish_app (evs : list event) (extra : list event) :
  forallb (fun e => negb (is_publish e)) extra = true ->
  filter is_publish (evs ++ extra) = filter is_publish evs.
Proof.
  intros Hquiet. rewrite filter_app.
  assert (Hnil : filter is_publish extra = []).
  { induction extra as [| e extra IH]; [reflexivity |].
    cbn in Hquiet. apply andb_prop in Hquiet as [He Hrest].
    rewrite filter_cons. destruct (is_publish e) eqn:Hp; [discriminate |].
    destruct (decide (is_publish e)) as [Hd | _]; [rewrite Hp in Hd; contradiction |].
    apply IH, Hrest. }
  rewrite Hnil. apply app_nil_r.
Qed.

Lemma read_sensor_healthy (reg : Z) (w : World) :
  fault (serial w) = None ->
  exists extra,
    read_sensor reg w
    = (Ok (accepted (response_to (read_frame READ_SYSTEM_REGISTER reg) 5 w)),
       {| serial := snd (sensor_on reg (serial w)); events := events w ++ extra |})
    /\ forallb (fun e => negb (is_publish e)) extra = true.
Proof.
  intros Hfault.
  unfold read_sensor, read_register, bind at 1.
  rewrite (read_exchange_ok READ_SYSTEM_REGISTER reg 5 w Hfault) by wire_byte.
  set (w1 := after_exchange (read_frame READ_SYSTEM_REGISTER reg) 5 w).
  assert (Hserial : serial w1 = snd (sensor_on reg (serial w))) by reflexivity.
  assert (Hevents : events w1 = events w ++ [LockAcquire; LockRelease]) by reflexivity.
  destruct (response_to (read_frame READ_SYSTEM_REGISTER reg) 5 w)
    as [| r0 [| r1 [| r2 [| r3 [| r4 [| r5 rest]]]]]];
    try (exists [LockAcquire; LockRelease;
                 Log WARNING ("Incomplete response for register " +:+ hex reg +:+ ".")];
         split; [| reflexivity];
         cbn [length Nat.eqb negb accepted]; unfold bind, logging, emit, ret;
         rewrite Hserial, Hevents, <- app_assoc; reflexivity).
  cbn [length Nat.eqb negb].
  rewrite (bind_ok _ _ w1 r0 w1) by reflexivity.
  cbn [accepted].
  destruct (Z.eqb_spec r0 PC_ADDRESS) as [-> | Haddr]; cbn [negb andb].
  2: { eexists. split.
       - unfold bind, logging, emit, ret. rewrite Hserial, Hevents, <- app_assoc.
         reflexivity.
       - reflexivity. }
  rewrite (bind_ok _ _ w1 (negb (Z.lxor (Z.lxor r1 r2) r3 =? r4)) w1) by reflexivity.
  destruct (Z.eqb_spec (Z.lxor (Z.lxor r1 r2) r3) r4) as [Hsum | Hsum]; cbn [negb].
  2: { eexists. split.
       - unfold bind, logging, emit, ret. rewrite Hserial, Hevents, <- app_assoc.
         reflexivity.
       - reflexivity. }
  destruct (decode_rego_response_total PC_ADDRESS r1 r2 r3 r4) as [value Hvalue].
  rewrite Hvalue.
  unfold try_except, bind at 1, lift at 1.
  exists [LockAcquire; LockRelease]. split; [| reflexivity].
  unfold ret. rewrite <- Hserial, <- Hevents. destruct w1; reflexivity.
Qed.

(** One of the six readings of [publish_power_sensors], on a working port. *)
Lemma read_sensor_on (reg : Z) (w : World) :
  fault (serial w) = None ->
  exists value w',
    read_sensor reg w = (Ok value, w')
    /\ reads_one value = fst (sensor_on reg (serial w))
    /\ serial w' = snd (sensor_on reg (serial w))
    /\ fault (serial w') = None
    /\ filter is_publish (events w') = filter is_publish (events w).
Proof.
  intros Hfault.
  destruct (read_sensor_healthy reg w Hfault) as (extra & Hrun & Hquiet).
  eexists. eexists. split; [exact Hrun |].
  cbn [serial events]. repeat split.
  apply filter_publish_app, Hquiet.
Qed.

(** A read publishes nothing, whatever the state of the port. *)
Lemma read_sensor_publishes_nothing (reg : Z) (w : World) :
  filter is_publish (events (snd (read_sensor reg w))) = filter is_publish (events w).
Proof.
  destruct (fault (serial w)) as [msg |] eqn:Hfault.
  - unfold read_sensor, read_register, bind at 1.
    rewrite (read_exchange_fault READ_SYSTEM_REGISTER reg 5 w msg Hfault) by wire_byte.
    cbn [snd events].
    apply filter_publish_app. reflexivity.
  - destruct (read_sensor_on reg w Hfault) as (value & w' & -> & _ & _ & _ & Hquiet).
    exact Hquiet.
Qed.

(** The only exception [read_sensor] raises is the one of the port. *)
Lemma read_sensor_raises (reg : Z) (w : World) (e : exn) :
  fst (read_sensor reg w) = Raise e ->
  exists msg, fault (serial w) = Some msg /\ e = SerialException msg.
Proof.
  destruct (fault (serial w)) as [msg |] eqn:Hfault.
  - unfold read_sensor, read_register, bind at 1.
    rewrite (read_exchange_fault READ_SYSTEM_REGISTER reg 5 w msg Hfault) by wire_byte.
    cbn [fst]. intros [= <-]. exists msg. split; reflexivity.
  - destruct (read_sensor_on reg w Hfault) as (value & w' & -> & _).
    cbn [fst]. discriminate.
Qed.





(** C4 on a 14 or 16 kW pump: the label 'Add heat 3kw' is not in the
    binary-sensor map of that profile, the lookup raises [KeyError] after
    the compressor was read, the handler logs it and the function returns
    0 having published nothing.  With every component running on a 14 kW
    pump the table gives 20057 W; 0 is returned. *)
Theorem publish_power_sensors_14_16_returns_zero :
  (forall (PUMP_SIZE_KW : Z) (w : World),
      PUMP_SIZE_KW = 14 \/ PUMP_SIZE_KW = 16 ->
      let w1 := snd (read_sensor 0x01FE w) in
      exists msg,
        publish_power_sensors PUMP_SIZE_KW w
        = (Ok 0, {| serial := serial w1; events := events w1 ++ [Log WARNING msg] |})
        /\ filter is_publish (events (snd (publish_power_sensors PUMP_SIZE_KW w)))
           = filter is_publish (events w))
  /\ publish_power_sensors 14 (fresh_world pump_all_on)
     = (Ok 0,
        {| serial := {| fault := None;
                        sent := [[0x81; 0x02; 0x00; 0x03; 0x7E; 0x00; 0x00; 0x00; 0x7D]];
                        inbound := [];
                        pump := pump_all_on |};
           events := [LockAcquire; LockRelease;
                      Log WARNING "Error in calculating power: 'Add heat 3kw'"] |})
  /\ table_power 14 true true true true true true = 20057.
Proof.
  split; [| split; reflexivity].
  intros PUMP_SIZE_KW w Hsize w1.
  destruct (binary_sensor_map_14_16 PUMP_SIZE_KW Hsize) as (Hc & H3 & _).
  pose proof (read_sensor_publishes_nothing 0x01FE w) as Hquiet. fold w1 in Hquiet.
  assert (Hrun : exists msg,
             publish_power_sensors PUMP_SIZE_KW w
             = (Ok 0, {| serial := serial w1; events := events w1 ++ [Log WARNING msg] |})).
  { unfold publish_power_sensors, try_except.
    unfold bind at 1, lift at 1. rewrite Hc.
    unfold bind at 1. subst w1.
    pose proof (read_sensor_raises 0x01FE w) as Hraises.
    destruct (read_sensor 0x01FE w) as [[value | e] w1]; cbn [snd].
    - unfold bind at 1, lift at 1. rewrite H3. eexists. reflexivity.
    - destruct (Hraises e eq_refl) as (msg & _ & ->). eexists. reflexivity. }
  destruct Hrun as [msg Hrun]. exists msg. split; [exact Hrun |].
  rewrite Hrun. cbn [snd events].
  rewrite filter_publish_app by reflexivity. exact Hquiet.
Qed.

Lemma publish_power_sensors_14_16_returns_zero_witness :
  (14 = 14 \/ 14 = 16)
  /\ exists msg,
      publish_power_sensors 14 (fresh_world pump_all_on)
      = (Ok 0,
         {| serial := serial (snd (read_sensor 0x01FE (fresh_world pump_all_on)));
            events := events (snd (read_sensor 0x01FE (fresh_world pump_all_on)))
                      ++ [Log WARNING msg] |}).
Proof.
  split; [left; reflexivity |].
  destruct (proj1 publish_power_sensors_14_16_returns_zero 14 (fresh_world pump_all_on)
              (or_introl eq_refl)) as (msg & Hrun & _).
  exists msg. exact Hrun.
Defined.

Example publish_power_sensors_5kw_all_on :
  fst (publish_power_sensors 5 (fresh_world pump_all_on)) = Ok 10707
  /\ filter is_publish (events (snd (publish_power_sensors 5 (fresh_world pump_all_on))))
     = [ MqttPublish "rego600/power/compressor" (PInt 1500) true;
         MqttPublish "rego600/power/add_heat_3kw" (PInt 3000) true;
         MqttPublish "rego600/power/add_heat_6kw" (PInt 6000) true;
         MqttPublish "rego600/power/pump_p1" (PInt 55) true;
         MqttPublish "rego600/power/pump_p2" (PInt 46) true;
         MqttPublish "rego600/power/pump_p3" (PInt 106) true;
         MqttPublish "rego600/power/total" (PInt 10707) true ]
  /\ table_power 5 true true true true true true = 10707.
Proof. repeat split; reflexivity. Qed.

(** ** Energy accumulation *)

(** Every operation of the update is the binary64 operation: the result of
    the exact one, rounded to nearest, ties to even. *)
Lemma energy_update_operations (energy_total_kwh last_energy_update : float)
  (total_power_w : Z) (now_energy power : float) :
  float_of_int total_power_w = Ok power ->
  exists total,
    energy_update energy_total_kwh last_energy_update total_power_w now_energy
    = Ok (total, now_energy)
    /\ Prim2SF total
       = SF64add (Prim2SF energy_total_kwh)
           (SF64div
              (SF64mul (Prim2SF power)
                 (SF64div (SF64sub (Prim2SF now_energy) (Prim2SF last_energy_update))
                    (Prim2SF 3600)))
              (Prim2SF 1000)).
Proof.
  intros Hpower. unfold energy_update. rewrite Hpower. cbn [rbind].
  eexists. split; [reflexivity |].
  rewrite add_spec, div_spec, mul_spec, div_spec, sub_spec. reflexivity.
Qed.

Lemma finite_cases (x : float) :
  PrimFloat.is_finite x = true ->
  (exists s, Prim2SF x = S754_zero s) \/ (exists s m e, Prim2SF x = S754_finite s m e).
Proof.
  unfold PrimFloat.is_finite, PrimFloat.is_nan, PrimFloat.is_infinity.
  rewrite !FloatAxioms.eqb_spec, abs_spec.
  destruct (Prim2SF x) as [s | s | | s m e].
  - intros _. left. exists s. reflexivity.
  - destruct s; vm_compute; discriminate.
  - vm_compute. discriminate.
  - intros _. right. exists s, m, e. reflexivity.
Qed.

(** With no component running the total does not move. *)
Lemma energy_update_idle (energy_total_kwh last_energy_update now_energy : float) :
  PrimFloat.is_finite ((now_energy - last_energy_update) / 3600)%float = true ->
  energy_total_kwh <> (-0)%float ->
  energy_update energy_total_kwh last_energy_update 0 now_energy
  = Ok (energy_total_kwh, now_energy).
Proof.
  intros Hfinite Hzero.
  destruct (energy_update_operations energy_total_kwh last_energy_update 0 now_energy
              0%float eq_refl) as (total & -> & Htotal).
  f_equal. f_equal. apply Prim2SF_inj. rewrite Htotal.
  rewrite <- sub_spec, <- div_spec.
  set (dt := ((now_energy - last_energy_update) / 3600)%float) in *.
  assert (Hdelta : exists s,
             SF64div (SF64mul (Prim2SF 0) (Prim2SF dt)) (Prim2SF 1000) = S754_zero s).
  { destruct (finite_cases dt Hfinite) as [[s ->] | (s & m & e & ->)];
      eexists; reflexivity. }
  destruct Hdelta as [s ->].
  destruct (Prim2SF energy_total_kwh) as [s' | s' | | s' m e] eqn:Htot;
    try reflexivity.
  destruct s', s; try reflexivity.
  contradiction Hzero. apply Prim2SF_inj. rewrite Htot. reflexivity.
Qed.

(** C5, as amended: on each full sweep the energy total becomes the
    binary64 value of [total + (P * ((now - last) / 3600.0)) / 1000.0],
    every one of the five operations rounded to nearest, and [now] becomes
    the time of the last update; the increase is [P * hours / 1000] only up
    to these roundings.  With no component running and a finite elapsed
    time a total other than the negative zero is unchanged.  From a zero
    total, one sweep at 1000 W
    whose timestamps are 0 and 3600 gives exactly 1.0 kWh; the same hour
    taken in 240 sweeps of 15 s gives 1 - 21/2^53 (0.9999999999999977),
    not 1.0. *)
Theorem energy_update_rounded :
  (forall (energy_total_kwh last_energy_update : float) (total_power_w : Z)
          (now_energy power : float),
      float_of_int total_power_w = Ok power ->
      exists total,
        energy_update energy_total_kwh last_energy_update total_power_w now_energy
        = Ok (total, now_energy)
        /\ Prim2SF total
           = SF64add (Prim2SF energy_total_kwh)
               (SF64div
                  (SF64mul (Prim2SF power)
                     (SF64div (SF64sub (Prim2SF now_energy) (Prim2SF last_energy_update))
                        (Prim2SF 3600)))
                  (Prim2SF 1000)))
  /\ (forall energy_total_kwh last_energy_update now_energy : float,
         PrimFloat.is_finite ((now_energy - last_energy_update) / 3600)%float = true ->
         energy_total_kwh <> (-0)%float ->
         energy_update energy_total_kwh last_energy_update 0 now_energy
         = Ok (energy_total_kwh, now_energy))
  /\ energy_update 0 0 1000 3600 = Ok (1%float, 3600%float)
  /\ sweeps 240 15 1000 0 0 = Ok (0x1.fffffffffffebp-1%float, 3600%float)
  /\ exact 0x1.fffffffffffebp-1 = Some (Qminus (1 # 1) (21 # 2 ^ 53)).
Proof.
  split; [exact energy_update_operations |].
  split; [exact energy_update_idle |].
  repeat split; vm_compute; reflexivity.
Qed.

Lemma energy_update_rounded_witness :
  float_of_int 1500 = Ok 1500%float
  /\ PrimFloat.is_finite ((1700003600 - 1700000000) / 3600)%float = true
  /\ 2.5%float <> (-0)%float
  /\ energy_update 2.5 1700000000 1500 1700003600 = Ok (4%float, 1700003600%float)
  /\ energy_update 2.5 1700000000 0 1700003600 = Ok (2.5%float, 1700003600%float).
Proof.
  split; [reflexivity |]. split; [reflexivity |].
  assert (Hne : 2.5%float <> (-0)%float).
  { intros Heq. apply (f_equal Prim2SF) in Heq. vm_compute in Heq. discriminate Heq. }
  split; [exact Hne |]. split.
  - destruct (proj1 energy_update_rounded 2.5%float 1700000000%float 1500
                1700003600%float 1500%float eq_refl) as (total & -> & Htotal).
    f_equal. f_equal. apply Prim2SF_inj. rewrite Htotal. vm_compute. reflexivity.
  - exact (proj1 (proj2 energy_update_rounded) 2.5%float 1700000000%float
             1700003600%float eq_refl Hne).
Defined.

(** C5 as stated fails: the increase of the total is not the exact value
    of [P * hours / 1000].  At 1000 W a sweep of 15 s from a zero total
    adds a float, and no float is 1/240; from a total of 0.1 (the float
    0x1.999999999999ap-4) the total does not even grow by the float that
    the formula gives; and over an hour of such sweeps from zero the total
    does not reach 1.0. *)
Lemma energy_update_not_as_specified :
  ~ (forall (energy_total_kwh last_energy_update : float) (total_power_w : Z)
            (now_energy : float),
        PrimFloat.is_finite energy_total_kwh = true ->
        PrimFloat.is_finite last_energy_update = true ->
        PrimFloat.is_finite now_energy = true ->
        0 <= total_power_w <= 100000 ->
        increase_as_specified energy_total_kwh last_energy_update total_power_w
          now_energy = true)
  /\ (exists total,
        energy_update 0x1.999999999999ap-4 0 1000 15 = Ok (total, 15%float)
        /\ (total - 0x1.999999999999ap-4)%float <> (1000 * (15 / 3600) / 1000)%float)
  /\ sweeps 240 15 1000 0 0 <> Ok (1%float, 3600%float).
Proof.
  split; [| split].
  - intros Hclaim.
    specialize (Hclaim 0%float 0%float 1000 15%float eq_refl eq_refl eq_refl
                  ltac:(lia)).
    vm_compute in Hclaim. discriminate Hclaim.
  - eexists. split; [vm_compute; reflexivity |].
    intros Heq. apply (f_equal Prim2SF) in Heq.
    vm_compute in Heq. discriminate Heq.
  - intros Heq.
    apply (f_equal (fun outcome => match outcome with
                                   | Ok (total, _) => Prim2SF total
                                   | Raise _ => S754_nan
                                   end)) in Heq.
    vm_compute in Heq. discriminate Heq.
Qed.

(** * Further properties of the codec *)

Lemma encode_register_low16 (value : Z) :
  encode_register value = encode_register (value mod 2 ^ 16).
Proof.
  rewrite !encode_register_groups.
  change (2 ^ 16) with 65536. change (2 ^ 14) with 16384.
  change (2 ^ 7) with 128. change (2 ^ 2) with 4.
  f_equal; [| f_equal; [| f_equal]]; Z.div_mod_to_equations; lia.
Qed.

Lemma decode_encode_low16 (value head tail : Z) :
  decode_rego_response (head :: encode_register value ++ [tail])
  = Ok (value mod 2 ^ 16).
Proof.
  rewrite encode_register_low16.
  apply encode_then_decode_16bit.
  apply Z.mod_pos_bound. reflexivity.
Qed.

(** X1: whatever integer is encoded, negative ones included, decoding the
    three bytes of [encode_register] gives the integer modulo 2^16: a
    value written as -215 reads back as 65321. *)
Theorem decode_of_encode_mod_2_16 (value head tail : Z) :
  decode_rego_response (head :: encode_register value ++ [tail])
  = Ok (value mod 2 ^ 16).
Proof. apply decode_encode_low16. Qed.

(** X2: [encode_register] looks at the low 16 bits only and loses none of
    them: two integers get the same three bytes exactly when they agree
    modulo 2^16. *)
Theorem encode_register_injective_mod_2_16 (a b : Z) :
  encode_register a = encode_register b <-> a mod 2 ^ 16 = b mod 2 ^ 16.
Proof.
  split.
  - intros Heq.
    pose proof (decode_encode_low16 a 0 0) as Ha.
    pose proof (decode_encode_low16 b 0 0) as Hb.
    rewrite Heq in Ha. rewrite Ha in Hb. injection Hb as Hb. exact Hb.
  - intros Heq.
    rewrite (encode_register_low16 a), (encode_register_low16 b), Heq.
    reflexivity.
Qed.

Lemma land_pow2_set (a k : Z) :
  0 <= k -> 2 ^ k <= a < 2 ^ (k + 1) -> Z.land a (2 ^ k) = 2 ^ k.
Proof.
  intros Hk Ha. apply Z.bits_inj'. intros n Hn.
  rewrite Z.land_spec, Z.pow2_bits_eqb by lia.
  destruct (Z.eqb_spec k n) as [<- | Hne]; [| apply andb_false_r].
  rewrite andb_true_r.
  apply Z.testbit_true; [lia |].
  rewrite Z.pow_add_r in Ha by lia. change (2 ^ 1) with 2 in Ha.
  assert (Hpos : 0 < 2 ^ k) by (apply Z.pow_pos_nonneg; lia).
  assert (Hq : a / 2 ^ k = 1).
  { symmetry. apply (Z.div_unique a (2 ^ k) 1 (a - 2 ^ k)); lia. }
  rewrite Hq. reflexivity.
Qed.

Lemma decode_signed_groups (value head tail : Z) :
  - 2 ^ 16 <= value < 2 ^ 16 ->
  decode_rego_response (head :: signed_groups value ++ [tail]) = Ok value.
Proof.
  intros Hvalue.
  unfold signed_groups.
  cbn [app length Nat.ltb Nat.leb decode_rego_response getitem lookup
       list_lookup rbind].
  set (b1 := (value / 2 ^ 14) mod 2 ^ 3).
  set (b2 := (value / 2 ^ 7) mod 2 ^ 7).
  set (b3 := value mod 2 ^ 7).
  assert (Hb1 : 0 <= b1 < 2 ^ 3) by (apply Z.mod_pos_bound; lia).
  assert (Hb2 : 0 <= b2 < 2 ^ 7) by (apply Z.mod_pos_bound; lia).
  assert (Hb3 : 0 <= b3 < 2 ^ 7) by (apply Z.mod_pos_bound; lia).
  rewrite reassemble_groups by lia.
  change (2 ^ 3) with 8 in Hb1. change (2 ^ 7) with 128 in Hb1, Hb2, Hb3.
  rewrite (Z.mod_small b1) by (change (2 ^ 7) with 128; lia).
  assert (Hraw : b1 * 2 ^ 14 + b2 * 2 ^ 7 + b3 = value mod 2 ^ 17).
  { subst b1 b2 b3. change (2 ^ 14) with 16384. change (2 ^ 7) with 128.
    change (2 ^ 3) with 8. change (2 ^ 17) with 131072.
    Z.div_mod_to_equations. lia. }
  rewrite Hraw. change 0x10000 with (2 ^ 16). change 0x20000 with (2 ^ 17).
  destruct (Z.neg_nonneg_cases value) as [Hneg | Hpos].
  + assert (Hmod : value mod 2 ^ 17 = value + 2 ^ 17).
    { change (2 ^ 17) with 131072. change (2 ^ 16) with 65536 in Hvalue.
      Z.div_mod_to_equations. lia. }
    rewrite Hmod, (land_pow2_set (value + 2 ^ 17) 16).
    * change (2 ^ 16 =? 0) with false. cbv iota. f_equal. lia.
    * lia.
    * change (2 ^ (16 + 1)) with 131072. change (2 ^ 17) with 131072.
      change (2 ^ 16) with 65536 in *. lia.
  + assert (Hmod : value mod 2 ^ 17 = value).
    { apply Z.mod_small. change (2 ^ 17) with 131072.
      change (2 ^ 16) with 65536 in Hvalue. lia. }
    rewrite Hmod, land_pow2_small by lia. reflexivity.
Qed.

(** X3: [decode_rego_response] reads bytes 1 to 3 as a 17-bit two's
    complement number: for every value from -65536 to 65535 the answer
    that carries its three groups decodes to that value, whatever the
    first and last byte are; and fewer than five bytes raise the
    [ValueError]. *)
Theorem decode_rego_response_signed :
  (forall value head tail : Z,
      - 2 ^ 16 <= value < 2 ^ 16 ->
      decode_rego_response (head :: signed_groups value ++ [tail]) = Ok value)
  /\ (forall data : list Z,
         (length data < 5)%nat ->
         decode_rego_response data = Raise (ValueError "Response too short")).
Proof.
  split; [exact decode_signed_groups |].
  intros data Hshort. unfold decode_rego_response.
  destruct (Nat.ltb_spec (length data) 5) as [_ | Hge]; [reflexivity | lia].
Qed.

Lemma decode_rego_response_signed_witness :
  - 2 ^ 16 <= -215 < 2 ^ 16
  /\ decode_rego_response (0x01 :: signed_groups (-215) ++ [0x00]) = Ok (-215).
Proof.
  split; [split; [discriminate | reflexivity] |].
  apply (proj1 decode_rego_response_signed (-215) 0x01 0x00).
  split; [discriminate | reflexivity].
Defined.

(** * Further properties of the register access layer *)

Lemma acknowledged_run (response : list Z) (w : World) :
  acknowledged response w = (Ok (acked response), w).
Proof. destruct response as [| b [| b' rest]]; reflexivity. Qed.


Lemma write_setting_run (reg_addr value : Z) (w : World) :
  fault (serial w) = None ->
  let frame := frame_of PUMP_ADDRESS WRITE_SYSTEM_REGISTER
                 (encode_register reg_addr) (encode_register value) in
  write_setting reg_addr value w
  = (Ok (acked (response_to frame 1 w)), after_exchange frame 1 w).
Proof.
  intros Hfault frame.
  destruct (write_frame_bytes WRITE_SYSTEM_REGISTER reg_addr value) as [Hb _];
    [wire_byte |].
  unfold write_setting, bind at 1.
  fold (frame_of PUMP_ADDRESS WRITE_SYSTEM_REGISTER
          (encode_register reg_addr) (encode_register value)).
  rewrite (exchange_ok _ 1 w Hfault Hb). apply acknowledged_run.
Qed.

Lemma press_key_run (reg_addr : Z) (w : World) :
  fault (serial w) = None ->
  let frame := frame_of PUMP_ADDRESS WRITE_FRONT_PANEL
                 (encode_register reg_addr) (encode_register 1) in
  press_key reg_addr w
  = (Ok (acked (response_to frame 1 w)), after_exchange frame 1 w).
Proof.
  intros Hfault frame.
  destruct (write_frame_bytes WRITE_FRONT_PANEL reg_addr 1) as [Hb _];
    [wire_byte |].
  unfold press_key, bind at 1.
  fold (frame_of PUMP_ADDRESS WRITE_FRONT_PANEL
          (encode_register reg_addr) (encode_register 1)).
  rewrite (exchange_ok _ 1 w Hfault Hb). apply acknowledged_run.
Qed.

Lemma wheel_frame_bytes (direction : string) (value : Z) :
  wheel_value direction = Some value ->
  bytes (frame_of PUMP_ADDRESS WRITE_FRONT_PANEL (encode_register 0x0044)
           (wheel_value_bytes value))
  = Ok (frame_of PUMP_ADDRESS WRITE_FRONT_PANEL (encode_register 0x0044)
          (wheel_value_bytes value)).
Proof.
  intros Hvalue.
  destruct (wheel_value_cases _ _ Hvalue) as [[_ ->] | [_ ->]]; reflexivity.
Qed.

Lemma turn_wheel_run (direction : string) (value : Z) (w : World) :
  wheel_value direction = Some value ->
  fault (serial w) = None ->
  let frame := frame_of PUMP_ADDRESS WRITE_FRONT_PANEL (encode_register 0x0044)
                 (wheel_value_bytes value) in
  turn_wheel direction w
  = (Ok (acked (response_to frame 1 w)), after_exchange frame 1 w).
Proof.
  intros Hvalue Hfault frame.
  unfold turn_wheel, bind at 1, lift at 1.
  rewrite keypanel_wheel, Hvalue. unfold bind at 1.
  fold (frame_of PUMP_ADDRESS WRITE_FRONT_PANEL (encode_register 0x0044)
          (wheel_value_bytes value)).
  rewrite (exchange_ok _ 1 w Hfault (wheel_frame_bytes direction value Hvalue)).
  apply acknowledged_run.
Qed.



Lemma failed_exchange (packet : list Z) (size : nat) (w : World) (msg : string) :
  fault (serial w) = Some msg ->
  bytes packet = Ok packet ->
  with_serial_lock (frame <- lift (bytes packet) ;; ser_write frame ;; ser_read size) w
  = (Raise (SerialException msg), after_failed_exchange w).
Proof. apply exchange_fault. Qed.

(** X5: on a failed port every register operation raises the port's
    [SerialException] to its caller: [read_register] does not turn it into
    [None], the writes do not turn it into [False].  The lock was taken and
    released, nothing was sent and nothing was logged. *)
Theorem serial_exception_propagates (w : World) (msg : string) :
  fault (serial w) = Some msg ->
  (forall (A : Type) (reg_addr command : Z) (expected_length : nat)
          (decode_func : list Z -> result A),
      0 <= command < 256 ->
      read_register reg_addr command expected_length decode_func w
      = (Raise (SerialException msg), after_failed_exchange w))
  /\ (forall reg_addr value,
         write_setting reg_addr value w
         = (Raise (SerialException msg), after_failed_exchange w))
  /\ (forall reg_addr,
         press_key reg_addr w = (Raise (SerialException msg), after_failed_exchange w))
  /\ (forall direction value,
         wheel_value direction = Some value ->
         turn_wheel direction w = (Raise (SerialException msg), after_failed_exchange w)).
Proof.
  intros Hfault. repeat split.
  - intros A reg_addr command expected_length decode_func Hcommand.
    unfold read_register, bind at 1.
    rewrite (read_exchange_fault command reg_addr expected_length w msg Hfault Hcommand).
    reflexivity.
  - intros reg_addr value.
    destruct (write_frame_bytes WRITE_SYSTEM_REGISTER reg_addr value) as [Hb _];
      [wire_byte |].
    unfold write_setting, bind at 1.
    fold (frame_of PUMP_ADDRESS WRITE_SYSTEM_REGISTER
            (encode_register reg_addr) (encode_register value)).
    rewrite (failed_exchange _ 1 w msg Hfault Hb). reflexivity.
  - intros reg_addr.
    destruct (write_frame_bytes WRITE_FRONT_PANEL reg_addr 1) as [Hb _];
      [wire_byte |].
    unfold press_key, bind at 1.
    fold (frame_of PUMP_ADDRESS WRITE_FRONT_PANEL
            (encode_register reg_addr) (encode_register 1)).
    rewrite (failed_exchange _ 1 w msg Hfault Hb). reflexivity.
  - intros direction value Hvalue.
    unfold turn_wheel, bind at 1, lift at 1.
    rewrite keypanel_wheel, Hvalue. unfold bind at 1.
    fold (frame_of PUMP_ADDRESS WRITE_FRONT_PANEL (encode_register 0x0044)
            (wheel_value_bytes value)).
    rewrite (failed_exchange _ 1 w msg Hfault (wheel_frame_bytes direction value Hvalue)).
    reflexivity.
Qed.

Lemma serial_exception_propagates_witness :
  fault (serial {| serial := {| fault := Some "device disconnected"%string;
                                 sent := []; inbound := []; pump := pump_all_on |};
                   events := [] |})
  = Some "device disconnected"%string
  /\ fst (read_sensor 0x0209
            {| serial := {| fault := Some "device disconnected"%string;
                            sent := []; inbound := []; pump := pump_all_on |};
               events := [] |})
     = Raise (SerialException "device disconnected").
Proof.
  split; [reflexivity |].
  pose proof (proj1 (serial_exception_propagates
                       {| serial := {| fault := Some "device disconnected"%string;
                                       sent := []; inbound := []; pump := pump_all_on |};
                          events := [] |}
                       "device disconnected" eq_refl)
                Z 0x0209 READ_SYSTEM_REGISTER 5%nat decode_rego_response
                ltac:(split; [discriminate | reflexivity])) as Hrun.
  unfold read_sensor. rewrite Hrun. reflexivity.
Defined.

Lemma accepted_reply (value : Z) :
  - 2 ^ 16 <= value < 2 ^ 16 -> accepted (reply_with value) = Some value.
Proof.
  intros Hvalue.
  pose proof (decode_signed_groups value PC_ADDRESS
                (fold_left Z.lxor (signed_groups value) 0) Hvalue) as Hdecode.
  unfold reply_with, signed_groups in *. cbn [app fold_left] in *.
  unfold accepted. rewrite Hdecode, Z.lxor_0_l, !Z.eqb_refl. reflexivity.
Qed.

(** X6: a correct answer is read back as its value.  On a working port
    with nothing pending, when the controller answers the read frame with
    the echo address, the three groups of a value from -65536 to 65535 and
    their XOR, [read_sensor] (and [read_setting], the same exchange)
    returns that value, having sent one frame and consumed the answer. *)
Theorem read_sensor_reads_reply (reg_addr value : Z) (w : World) :
  fault (serial w) = None ->
  inbound (serial w) = [] ->
  pump (serial w) (read_frame READ_SYSTEM_REGISTER reg_addr) = reply_with value ->
  - 2 ^ 16 <= value < 2 ^ 16 ->
  exists w',
    read_sensor reg_addr w = (Ok (Some value), w')
    /\ read_setting reg_addr w = (Ok (Some value), w')
    /\ sent (serial w') = sent (serial w) ++ [read_frame READ_SYSTEM_REGISTER reg_addr]
    /\ inbound (serial w') = []
    /\ fault (serial w') = None.
Proof.
  intros Hfault Hinbound Hpump Hvalue.
  destruct (read_sensor_healthy reg_addr w Hfault) as (extra & Hrun & _).
  assert (Hresponse : response_to (read_frame READ_SYSTEM_REGISTER reg_addr) 5 w
                      = reply_with value).
  { unfold response_to. rewrite Hinbound, Hpump. reflexivity. }
  rewrite Hresponse, (accepted_reply value Hvalue) in Hrun.
  eexists. split; [exact Hrun |]. split; [exact Hrun |].
  cbn [serial sensor_on snd sent inbound fault].
  rewrite Hinbound, Hpump. repeat split.
Qed.

Lemma read_sensor_reads_reply_witness :
  fault (serial (fresh_world (fun _ => reply_with (-215)))) = None
  /\ inbound (serial (fresh_world (fun _ => reply_with (-215)))) = []
  /\ - 2 ^ 16 <= -215 < 2 ^ 16
  /\ fst (read_sensor 0x020A (fresh_world (fun _ => reply_with (-215)))) = Ok (Some (-215)).
Proof.
  assert (Hrange : - 2 ^ 16 <= -215 < 2 ^ 16) by (split; [discriminate | reflexivity]).
  split; [reflexivity |]. split; [reflexivity |]. split; [exact Hrange |].
  destruct (read_sensor_reads_reply 0x020A (-215) (fresh_world (fun _ => reply_with (-215)))
              eq_refl eq_refl eq_refl Hrange) as (w' & Hrun & _).
  rewrite Hrun. reflexivity.
Defined.

(** * Further properties of the command handler *)

(** The first loop stops at the first entry whose topic matches. *)
Lemma dispatch_setting_find (topic : string) (payload : Z) (items : list (string * string)) :
  dispatch_setting topic payload items
  = match find (fun kv => String.eqb topic (setting_topic kv.1)) items with
    | Some (key, reg_name) =>
        reg_addr <- lift (dict_getitem SETTINGS_MAP reg_name) ;;
        write_setting reg_addr payload ;;
        logging INFO ("Updated setting " +:+ reg_name +:+ " → " +:+ str_of_int payload) ;;
        ret true
    | None => ret false
    end.
Proof.
  induction items as [| [key reg_name] rest IH]; [reflexivity |].
  cbn [dispatch_setting find fst]. fold (setting_topic key).
  destruct (String.eqb topic (setting_topic key)); [reflexivity | exact IH].
Qed.

Lemma dispatch_key_find (topic : string) (items : list (string * string)) :
  dispatch_key topic items
  = match find (fun kv => String.eqb topic (key_topic kv.1)) items with
    | Some (key, action) =>
        (if contains "wheel" key then
           turn_wheel action ;;
           logging INFO ("Turned wheel " +:+ action)
         else
           reg_addr <- lift (dict_getitem KEYPANEL_MAP action) ;;
           press_key reg_addr ;;
           logging INFO ("Pressed " +:+ action)) ;;
        ret true
    | None => ret false
    end.
Proof.
  induction items as [| [key action] rest IH]; [reflexivity |].
  cbn [dispatch_key find fst]. fold (key_topic key).
  destruct (String.eqb topic (key_topic key)); [reflexivity | exact IH].
Qed.

Lemma find_none_of_all {A : Type} (test : A -> bool) (items : list A) :
  (forall x, x ∈ items -> test x = false) -> find test items = None.
Proof.
  induction items as [| x rest IH]; intros Hall; [reflexivity |].
  cbn [find]. rewrite (Hall x) by apply list_elem_of_here.
  apply IH. intros y Hy. apply Hall. apply list_elem_of_further, Hy.
Qed.

Lemma on_mqtt_message_parsed
  (payload_decode : list Z -> result string) (int_of_str : string -> result Z)
  (topic : string) (msg_payload : list Z) (payload_raw : string) (payload : Z) (w : World) :
  payload_decode msg_payload = Ok payload_raw ->
  int_of_str payload_raw = Ok payload ->
  on_mqtt_message payload_decode int_of_str topic msg_payload w = dispatch topic payload w.
Proof.
  intros Hdecode Hint. unfold on_mqtt_message, bind at 1, lift at 1.
  rewrite Hdecode, Hint. reflexivity.
Qed.

Lemma dispatch_setting_hit (key reg_name : string) (reg_addr payload : Z) (w : World) :
  find (fun kv => String.eqb (setting_topic key) (setting_topic kv.1)) setting_topics
  = Some (key, reg_name) ->
  dict_getitem SETTINGS_MAP reg_name = Ok reg_addr ->
  fault (serial w) = None ->
  dispatch (setting_topic key) payload w
  = (Ok tt,
     after_logged_write
       (frame_of PUMP_ADDRESS WRITE_SYSTEM_REGISTER
          (encode_register reg_addr) (encode_register payload))
       ("Updated setting " +:+ reg_name +:+ " → " +:+ str_of_int payload) w).
Proof.
  intros Hfind Hreg Hfault.
  unfold dispatch. rewrite dispatch_setting_find, Hfind.
  unfold bind at 1. unfold bind at 1, lift at 1. rewrite Hreg.
  unfold bind at 1.
  rewrite (write_setting_run reg_addr payload w Hfault).
  unfold after_logged_write, bind, logging, emit, ret.
  cbn [serial events after_exchange]. rewrite <- app_assoc. reflexivity.
Qed.

(** X7: every setting topic writes its own register.  For each entry
    (key, name) of [setting_topics], a message on [.../set/setting/key]
    whose payload is the integer [payload] sends, on a working port, the
    one write frame for register [SETTINGS_MAP[name]] with that value,
    logs the update and returns; negative payloads are written as they
    are encoded, not rejected. *)
Theorem on_mqtt_message_writes_its_setting
  (payload_decode : list Z -> result string) (int_of_str : string -> result Z)
  (key reg_name : string) (msg_payload : list Z) (payload_raw : string) (payload : Z)
  (w : World) :
  (key, reg_name) ∈ setting_topics ->
  payload_decode msg_payload = Ok payload_raw ->
  int_of_str payload_raw = Ok payload ->
  fault (serial w) = None ->
  exists reg_addr,
    SETTINGS_MAP !! reg_name = Some reg_addr
    /\ on_mqtt_message payload_decode int_of_str (setting_topic key) msg_payload w
       = (Ok tt,
          after_logged_write
            (frame_of PUMP_ADDRESS WRITE_SYSTEM_REGISTER
               (encode_register reg_addr) (encode_register payload))
            ("Updated setting " +:+ reg_name +:+ " → " +:+ str_of_int payload) w).
Proof.
  intros Hin Hdecode Hint Hfault.
  rewrite (on_mqtt_message_parsed _ _ _ _ _ _ w Hdecode Hint).
  unfold setting_topics in Hin.
  repeat (apply elem_of_cons in Hin as [Heq | Hin];
          [ injection Heq as -> ->;
            eexists; split;
            [ reflexivity
            | apply dispatch_setting_hit;
              [vm_compute; reflexivity | reflexivity | exact Hfault] ] |]).
  apply elem_of_nil in Hin. contradiction.
Qed.

Lemma on_mqtt_message_writes_its_setting_witness :
  ("heat_curve_fine_adj", "Heat curve fine adj.")%string ∈ setting_topics
  /\ Builtins.utf8_decode (Builtins.bytes_of_text "-15") = Ok "-15"%string
  /\ Builtins.int_literal "-15" = Ok (-15)
  /\ fault (serial (fresh_world pump_all_on)) = None
  /\ sent (serial (snd (on_mqtt_message Builtins.utf8_decode Builtins.int_literal
                          (setting_topic "heat_curve_fine_adj")
                          (Builtins.bytes_of_text "-15") (fresh_world pump_all_on))))
     = [[0x81; 0x03; 0x00; 0x00; 0x01; 0x03; 0x7F; 0x71; 0x0C]].
Proof.
  assert (Hin : ("heat_curve_fine_adj", "Heat curve fine adj.")%string ∈ setting_topics)
    by (do 2 apply list_elem_of_further; apply list_elem_of_here).
  split; [exact Hin |]. split; [reflexivity |]. split; [reflexivity |].
  split; [reflexivity |].
  destruct (on_mqtt_message_writes_its_setting
              Builtins.utf8_decode Builtins.int_literal
              "heat_curve_fine_adj" "Heat curve fine adj."
              (Builtins.bytes_of_text "-15") "-15" (-15) (fresh_world pump_all_on)
              Hin eq_refl eq_refl eq_refl) as (reg_addr & Hreg & Hrun).
  injection Hreg as <-.
  rewrite Hrun. reflexivity.
Defined.

Lemma dispatch_key_press_hit (key action : string) (reg_addr payload : Z) (w : World) :
  find (fun kv => String.eqb (key_topic key) (setting_topic kv.1)) setting_topics = None ->
  find (fun kv => String.eqb (key_topic key) (key_topic kv.1)) key_topics
  = Some (key, action) ->
  contains "wheel" key = false ->
  dict_getitem KEYPANEL_MAP action = Ok reg_addr ->
  fault (serial w) = None ->
  dispatch (key_topic key) payload w
  = (Ok tt,
     after_logged_write
       (frame_of PUMP_ADDRESS WRITE_FRONT_PANEL (encode_register reg_addr) (encode_register 1))
       ("Pressed " +:+ action) w).
Proof.
  intros Hmiss Hfind Hwheel Hreg Hfault.
  unfold dispatch. rewrite dispatch_setting_find, Hmiss.
  unfold bind at 1, ret at 1.
  rewrite dispatch_key_find, Hfind, Hwheel.
  unfold bind at 1. unfold bind at 1. unfold bind at 1, lift at 1. rewrite Hreg.
  unfold bind at 1.
  rewrite (press_key_run reg_addr w Hfault).
  unfold after_logged_write, bind, logging, emit, ret.
  cbn [serial events after_exchange]. rewrite <- app_assoc. reflexivity.
Qed.

Lemma dispatch_key_wheel_hit (key action : string) (value payload : Z) (w : World) :
  find (fun kv => String.eqb (key_topic key) (setting_topic kv.1)) setting_topics = None ->
  find (fun kv => String.eqb (key_topic key) (key_topic kv.1)) key_topics
  = Some (key, action) ->
  contains "wheel" key = true ->
  wheel_value action = Some value ->
  fault (serial w) = None ->
  dispatch (key_topic key) payload w
  = (Ok tt,
     after_logged_write
       (frame_of PUMP_ADDRESS WRITE_FRONT_PANEL (encode_register 0x0044)
          (wheel_value_bytes value))
       ("Turned wheel " +:+ action) w).
Proof.
  intros Hmiss Hfind Hwheel Hvalue Hfault.
  unfold dispatch. rewrite dispatch_setting_find, Hmiss.
  unfold bind at 1, ret at 1.
  rewrite dispatch_key_find, Hfind, Hwheel.
  unfold bind at 1. unfold bind at 1. unfold bind at 1.
  rewrite (turn_wheel_run action value w Hvalue Hfault).
  unfold after_logged_write, bind, logging, emit, ret.
  cbn [serial events after_exchange]. rewrite <- app_assoc. reflexivity.
Qed.

(** X8: the key topics.  A message on [.../set/key/1], [/2] or [/3] with
    any integer payload presses that key: one front-panel write of the
    value 1 to register 0x09, 0x0A or 0x0B.  A message on
    [.../set/key/wheel_left] or [/wheel_right] turns the wheel that way.
    The value of the payload plays no part: 0 presses the key as 1 does. *)
Theorem on_mqtt_message_presses_its_key
  (payload_decode : list Z -> result string) (int_of_str : string -> result Z)
  (key action : string) (msg_payload : list Z) (payload_raw : string) (payload : Z)
  (w : World) :
  (key, action) ∈ key_topics ->
  payload_decode msg_payload = Ok payload_raw ->
  int_of_str payload_raw = Ok payload ->
  fault (serial w) = None ->
  (exists n,
      1 <= n <= 3 /\ key = str_of_int n
      /\ on_mqtt_message payload_decode int_of_str (key_topic key) msg_payload w
         = (Ok tt,
            after_logged_write
              (frame_of PUMP_ADDRESS WRITE_FRONT_PANEL
                 (encode_register (0x0008 + n)) (encode_register 1))
              ("Pressed " +:+ action) w))
  \/ (exists value,
         wheel_value action = Some value
         /\ key = ("wheel_" +:+ action)%string
         /\ on_mqtt_message payload_decode int_of_str (key_topic key) msg_payload w
            = (Ok tt,
               after_logged_write
                 (frame_of PUMP_ADDRESS WRITE_FRONT_PANEL (encode_register 0x0044)
                    (wheel_value_bytes value))
                 ("Turned wheel " +:+ action) w)).
Proof.
  intros Hin Hdecode Hint Hfault.
  rewrite (on_mqtt_message_parsed _ _ _ _ _ _ w Hdecode Hint).
  unfold key_topics in Hin.
  apply elem_of_cons in Hin as [Heq | Hin].
  { injection Heq as -> ->. left. exists 1.
    split; [lia |]. split; [reflexivity |].
    apply dispatch_key_press_hit;
      [vm_compute; reflexivity | vm_compute; reflexivity | reflexivity | reflexivity
      | exact Hfault]. }
  apply elem_of_cons in Hin as [Heq | Hin].
  { injection Heq as -> ->. left. exists 2.
    split; [lia |]. split; [reflexivity |].
    apply dispatch_key_press_hit;
      [vm_compute; reflexivity | vm_compute; reflexivity | reflexivity | reflexivity
      | exact Hfault]. }
  apply elem_of_cons in Hin as [Heq | Hin].
  { injection Heq as -> ->. left. exists 3.
    split; [lia |]. split; [reflexivity |].
    apply dispatch_key_press_hit;
      [vm_compute; reflexivity | vm_compute; reflexivity | reflexivity | reflexivity
      | exact Hfault]. }
  apply elem_of_cons in Hin as [Heq | Hin].
  { injection Heq as -> ->. right. exists 0x1FFFFF.
    split; [reflexivity |]. split; [reflexivity |].
    apply dispatch_key_wheel_hit;
      [vm_compute; reflexivity | vm_compute; reflexivity | reflexivity | reflexivity
      | exact Hfault]. }
  apply elem_of_cons in Hin as [Heq | Hin].
  { injection Heq as -> ->. right. exists 0x000001.
    split; [reflexivity |]. split; [reflexivity |].
    apply dispatch_key_wheel_hit;
      [vm_compute; reflexivity | vm_compute; reflexivity | reflexivity | reflexivity
      | exact Hfault]. }
  apply elem_of_nil in Hin. contradiction.
Qed.

Lemma on_mqtt_message_presses_its_key_witness :
  ("2", "Key 2")%string ∈ key_topics
  /\ Builtins.utf8_decode (Builtins.bytes_of_text "0") = Ok "0"%string
  /\ Builtins.int_literal "0" = Ok 0
  /\ fault (serial (fresh_world pump_all_on)) = None
  /\ sent (serial (snd (on_mqtt_message Builtins.utf8_decode Builtins.int_literal
                          (key_topic "2") (Builtins.bytes_of_text "0")
                          (fresh_world pump_all_on))))
     = [[0x81; 0x01; 0x00; 0x00; 0x0A; 0x00; 0x00; 0x01; 0x0B]]
  /\ exists w',
      on_mqtt_message Builtins.utf8_decode Builtins.int_literal
        (key_topic "2") (Builtins.bytes_of_text "0") (fresh_world pump_all_on)
      = (Ok tt, w').
Proof.
  assert (Hin : ("2", "Key 2")%string ∈ key_topics)
    by (apply list_elem_of_further; apply list_elem_of_here).
  split; [exact Hin |]. split; [reflexivity |]. split; [reflexivity |].
  split; [reflexivity |]. split; [reflexivity |].
  destruct (on_mqtt_message_presses_its_key
              Builtins.utf8_decode Builtins.int_literal "2" "Key 2"
              (Builtins.bytes_of_text "0") "0" 0 (fresh_world pump_all_on)
              Hin eq_refl eq_refl eq_refl)
    as [(n & _ & _ & Hrun) | (value & _ & _ & Hrun)];
    eexists; exact Hrun.
Defined.

(** X9: a topic that is none of the setting topics and none of the key
    topics is logged as unexpected and dropped: with an integer payload
    the handler returns normally and the port is not touched, working or
    not. *)
Theorem on_mqtt_message_unknown_topic
  (payload_decode : list Z -> result string) (int_of_str : string -> result Z)
  (topic : string) (msg_payload : list Z) (payload_raw : string) (payload : Z)
  (w : World) :
  (forall kv, kv ∈ setting_topics -> topic <> setting_topic kv.1) ->
  (forall kv, kv ∈ key_topics -> topic <> key_topic kv.1) ->
  payload_decode msg_payload = Ok payload_raw ->
  int_of_str payload_raw = Ok payload ->
  on_mqtt_message payload_decode int_of_str topic msg_payload w
  = (Ok tt,
     {| serial := serial w;
        events := events w ++ [Log WARNING ("Unexpected MQTT-topic: " +:+ topic)] |}).
Proof.
  intros Hsettings Hkeys Hdecode Hint.
  rewrite (on_mqtt_message_parsed _ _ _ _ _ _ w Hdecode Hint).
  unfold dispatch.
  rewrite dispatch_setting_find, find_none_of_all.
  2: { intros kv Hkv. apply String.eqb_neq, Hsettings, Hkv. }
  unfold bind at 1, ret at 1.
  rewrite dispatch_key_find, find_none_of_all.
  2: { intros kv Hkv. apply String.eqb_neq, Hkeys, Hkv. }
  reflexivity.
Qed.

Lemma on_mqtt_message_unknown_topic_witness :
  (forall kv, kv ∈ setting_topics -> "rego600/set/mode"%string <> setting_topic kv.1)
  /\ (forall kv, kv ∈ key_topics -> "rego600/set/mode"%string <> key_topic kv.1)
  /\ on_mqtt_message Builtins.utf8_decode Builtins.int_literal
       "rego600/set/mode" (Builtins.bytes_of_text "1") (fresh_world pump_all_on)
     = (Ok tt,
        {| serial := fresh_port pump_all_on;
           events := [Log WARNING "Unexpected MQTT-topic: rego600/set/mode"] |}).
Proof.
  assert (Hsettings : forall kv, kv ∈ setting_topics ->
                                 "rego600/set/mode"%string <> setting_topic kv.1).
  { intros kv Hkv. unfold setting_topics in Hkv.
    repeat (apply elem_of_cons in Hkv as [-> | Hkv]; [discriminate |]).
    apply elem_of_nil in Hkv. contradiction. }
  assert (Hkeys : forall kv, kv ∈ key_topics ->
                             "rego600/set/mode"%string <> key_topic kv.1).
  { intros kv Hkv. unfold key_topics in Hkv.
    repeat (apply elem_of_cons in Hkv as [-> | Hkv]; [discriminate |]).
    apply elem_of_nil in Hkv. contradiction. }
  split; [exact Hsettings |]. split; [exact Hkeys |].
  exact (on_mqtt_message_unknown_topic Builtins.utf8_decode Builtins.int_literal
           "rego600/set/mode" (Builtins.bytes_of_text "1") "1" 1
           (fresh_world pump_all_on) Hsettings Hkeys eq_refl eq_refl).
Defined.

(** * Further properties of the power computation *)



Lemma compressor_register (PUMP_SIZE_KW : Z) :
  dict_getitem (BINARY_SENSOR_MAP PUMP_SIZE_KW) "Compressor" = Ok 0x01FE.
Proof.
  unfold BINARY_SENSOR_MAP.
  destruct ((PUMP_SIZE_KW =? 14) || (PUMP_SIZE_KW =? 16)); reflexivity.
Qed.

(** X11: on a failed port [publish_power_sensors] does not raise, for any
    pump size: the [SerialException] of the first read is caught, logged as
    a warning, nothing is published and the power returned is 0. *)
Theorem publish_power_sensors_failed_port (PUMP_SIZE_KW : Z) (w : World) (msg : string) :
  fault (serial w) = Some msg ->
  publish_power_sensors PUMP_SIZE_KW w
  = (Ok 0,
     {| serial := serial w;
        events := events w
                  ++ [LockAcquire; LockRelease;
                      Log WARNING ("Error in calculating power: " +:+ msg)] |}).
Proof.
  intros Hfault.
  unfold publish_power_sensors, try_except.
  unfold bind at 1, lift at 1. rewrite compressor_register.
  unfold bind at 1.
  unfold read_sensor, read_register, bind at 1.
  rewrite (read_exchange_fault READ_SYSTEM_REGISTER 0x01FE 5 w msg Hfault) by wire_byte.
  cbn [is_Exception]. unfold bind, logging, emit, ret.
  cbn [serial events exn_str]. rewrite <- app_assoc. reflexivity.
Qed.

Lemma publish_power_sensors_failed_port_witness :
  fault (serial {| serial := {| fault := Some "device disconnected"%string;
                                 sent := []; inbound := []; pump := pump_all_on |};
                   events := [] |})
  = Some "device disconnected"%string
  /\ fst (publish_power_sensors 7
            {| serial := {| fault := Some "device disconnected"%string;
                            sent := []; inbound := []; pump := pump_all_on |};
               events := [] |})
     = Ok 0.
Proof.
  split; [reflexivity |].
  rewrite (publish_power_sensors_failed_port 7
             {| serial := {| fault := Some "device disconnected"%string;
                             sent := []; inbound := []; pump := pump_all_on |};
                events := [] |}
             "device disconnected" eq_refl).
  reflexivity.
Defined.

(** * Properties of the polling loops *)

Lemma publish_entry_raises (read_func : Z -> IO (option Z)) (topic_prefix name : string)
  (reg : Z) (w : World) (e : exn) (w' : World) :
  publish_entry read_func topic_prefix name reg w = (Raise e, w') ->
  read_func reg w = (Raise e, w').
Proof.
  unfold publish_entry, bind.
  destruct (read_func reg w) as [[[n |] | e0] w0]; [discriminate.. | ].
  intros [= -> ->]. reflexivity.
Qed.

Lemma publish_map_escapes (map_obj : list (string * Z)) (read_func : Z -> IO (option Z))
  (topic_prefix : string) :
  forall (w : World) (e : exn),
    fst (publish_map map_obj read_func topic_prefix w) = Raise e ->
    is_Exception e = false
    /\ exists reg w0, fst (read_func reg w0) = Raise e.
Proof.
  induction map_obj as [| [name reg] rest IH]; intros w e.
  - discriminate.
  - cbn [publish_map].
    destruct (publish_entry read_func topic_prefix name reg w) as [[[] | e0] w'] eqn:Hentry.
    + apply IH.
    + destruct (is_SerialException e0); [discriminate |].
      destruct (is_Exception e0) eqn:Hclass.
      * unfold bind, logging, emit. apply IH.
      * cbn [fst]. intros [= <-]. split; [exact Hclass |].
        exists reg, w. rewrite (publish_entry_raises _ _ _ _ _ _ _ Hentry). reflexivity.
Qed.

(** X12: [publish_map] lets no [Exception] out, whatever the read function
    does and on whichever entry: a [SerialException] ends the sweep of the
    map, any other [Exception] skips the entry.  So with a read function
    that raises nothing but [Exception]s the sweep returns normally.  What
    does leave is an exception outside [Exception] ([KeyboardInterrupt],
    [SystemExit]) that the read function raised: it ends the sweep at the
    entry where it occurs, with nothing logged. *)
Theorem publish_map_catches_every_Exception (map_obj : list (string * Z))
  (read_func : Z -> IO (option Z)) (topic_prefix : string) (w : World) :
  (forall e,
      fst (publish_map map_obj read_func topic_prefix w) = Raise e ->
      is_Exception e = false /\ exists reg w0, fst (read_func reg w0) = Raise e)
  /\ ((forall reg w0 e, fst (read_func reg w0) = Raise e -> is_Exception e = true) ->
      exists w', publish_map map_obj read_func topic_prefix w = (Ok tt, w'))
  /\ (forall name reg rest e,
         map_obj = (name, reg) :: rest ->
         fst (read_func reg w) = Raise e ->
         is_Exception e = false ->
         publish_map map_obj read_func topic_prefix w = (Raise e, snd (read_func reg w))).
Proof.
  split; [apply publish_map_escapes |]. split.
  - intros Hclass.
    destruct (publish_map map_obj read_func topic_prefix w) as [[[] | e] w'] eqn:Hrun.
    + exists w'. reflexivity.
    + destruct (publish_map_escapes map_obj read_func topic_prefix w e) as [Hout (reg & w0 & Hraise)].
      { rewrite Hrun. reflexivity. }
      rewrite (Hclass reg w0 e Hraise) in Hout. discriminate Hout.
  - intros name reg rest e -> Hraise Hout. cbn [publish_map].
    unfold publish_entry, bind at 1.
    destruct (read_func reg w) as [[value | e0] w0]; [discriminate Hraise |].
    cbn [fst] in Hraise. injection Hraise as ->. cbn [snd].
    destruct e; try discriminate Hout; reflexivity.
Qed.

Lemma publish_map_catches_every_Exception_witness :
  (forall reg w0 e, fst (read_sensor reg w0) = Raise e -> is_Exception e = true)
  /\ (exists w',
        publish_map SENSOR_MAP read_sensor "sensor" (failed_world "device disconnected")
        = (Ok tt, w'))
  /\ publish_map SENSOR_MAP (fun _ => raise KeyboardInterrupt) "sensor"
       (fresh_world pump_all_on)
     = (Raise KeyboardInterrupt, fresh_world pump_all_on).
Proof.
  assert (Hclass : forall reg w0 e,
             fst (read_sensor reg w0) = Raise e -> is_Exception e = true).
  { intros reg w0 e Hraise.
    destruct (read_sensor_raises reg w0 e Hraise) as (msg & _ & ->). reflexivity. }
  split; [exact Hclass |]. split.
  - exact (proj1 (proj2 (publish_map_catches_every_Exception SENSOR_MAP read_sensor
                           "sensor" (failed_world "device disconnected"))) Hclass).
  - exact (proj2 (proj2 (publish_map_catches_every_Exception SENSOR_MAP
                           (fun _ => raise KeyboardInterrupt) "sensor"
                           (fresh_world pump_all_on)))
             "Radiator Return GT1"%string 0x0209 (tl SENSOR_MAP) KeyboardInterrupt
             eq_refl eq_refl eq_refl).
Defined.

(** X13: on a failed port a sweep of a map with [read_sensor] stops at
    its first entry: one attempt is made, the error is logged with the
    name of that entry, nothing is published and the other registers are
    not tried. *)
Theorem publish_map_breaks_on_failed_port (name : string) (reg : Z)
  (rest : list (string * Z)) (topic_prefix : string) (w : World) (msg : string) :
  fault (serial w) = Some msg ->
  publish_map ((name, reg) :: rest) read_sensor topic_prefix w
  = (Ok tt,
     {| serial := serial w;
        events := events w
                  ++ [LockAcquire; LockRelease;
                      Log ERROR ("Serial error while reading " +:+ name +:+ ": " +:+ msg)] |}).
Proof.
  intros Hfault. cbn [publish_map].
  unfold publish_entry, bind at 1.
  unfold read_sensor, read_register, bind at 1.
  rewrite (read_exchange_fault READ_SYSTEM_REGISTER reg 5 w msg Hfault) by wire_byte.
  cbn [is_SerialException]. unfold logging, emit.
  cbn [serial events exn_str]. rewrite <- app_assoc. reflexivity.
Qed.

Lemma publish_map_breaks_on_failed_port_witness :
  fault (serial {| serial := {| fault := Some "device disconnected"%string;
                                 sent := []; inbound := []; pump := pump_all_on |};
                   events := [] |})
  = Some "device disconnected"%string
  /\ publish_map SENSOR_MAP read_sensor "sensor"
       {| serial := {| fault := Some "device disconnected"%string;
                       sent := []; inbound := []; pump := pump_all_on |};
          events := [] |}
     = (Ok tt,
        {| serial := {| fault := Some "device disconnected"%string;
                        sent := []; inbound := []; pump := pump_all_on |};
           events := [LockAcquire; LockRelease;
                      Log ERROR "Serial error while reading Radiator Return GT1: device disconnected"] |}).
Proof.
  split; [reflexivity |].
  exact (publish_map_breaks_on_failed_port "Radiator Return GT1" 0x0209 (tl SENSOR_MAP)
           "sensor"
           {| serial := {| fault := Some "device disconnected"%string;
                           sent := []; inbound := []; pump := pump_all_on |};
              events := [] |}
           "device disconnected" eq_refl).
Defined.

Lemma publish_entry_healthy (topic_prefix name : string) (reg : Z) (w : World) :
  fault (serial w) = None ->
  exists w',
    publish_entry read_sensor topic_prefix name reg w = (Ok tt, w')
    /\ serial w' = snd (sensor_on reg (serial w))
    /\ filter is_publish (events w')
       = filter is_publish (events w)
         ++ polled topic_prefix [(name, reg)] (serial w).
Proof.
  intros Hfault.
  destruct (read_sensor_healthy reg w Hfault) as (extra & Hrun & Hquiet).
  unfold publish_entry. rewrite (bind_ok _ _ _ _ _ Hrun).
  cbn [polled]. fold (response_to (read_frame READ_SYSTEM_REGISTER reg) 5 w).
  destruct (accepted (response_to (read_frame READ_SYSTEM_REGISTER reg) 5 w)) as [n |].
  - eexists. split; [reflexivity |]. cbn [serial events]. split; [reflexivity |].
    rewrite filter_app, (filter_publish_app _ _ Hquiet). reflexivity.
  - eexists. split; [reflexivity |]. cbn [serial events]. split; [reflexivity |].
    rewrite (filter_publish_app _ _ Hquiet), app_nil_r. reflexivity.
Qed.

Lemma polled_cons (topic_prefix name : string) (reg : Z) (rest : list (string * Z))
  (s : Serial) :
  polled topic_prefix ((name, reg) :: rest) s
  = polled topic_prefix [(name, reg)] s
    ++ polled topic_prefix rest (snd (sensor_on reg s)).
Proof.
  cbn [polled]. destruct (accepted _); reflexivity.
Qed.

(** X14: on a working port a sweep of a map with [read_sensor] polls
    every register of the map once, in the order of the map, whatever the
    answers are: an answer that is short, has a wrong address or a wrong
    checksum only leaves that entry unpublished.  The values published are
    the accepted ones, in order, under [prefix/NAME] with spaces turned
    into underscores. *)
Theorem publish_map_polls_every_register (map_obj : list (string * Z))
  (topic_prefix : string) (w : World) :
  fault (serial w) = None ->
  exists w',
    publish_map map_obj read_sensor topic_prefix w = (Ok tt, w')
    /\ fault (serial w') = None
    /\ sent (serial w')
       = sent (serial w)
         ++ map (fun entry => read_frame READ_SYSTEM_REGISTER entry.2) map_obj
    /\ filter is_publish (events w')
       = filter is_publish (events w) ++ polled topic_prefix map_obj (serial w).
Proof.
  revert w. induction map_obj as [| [name reg] rest IH]; intros w Hfault.
  - exists w. cbn [publish_map map polled]. rewrite !app_nil_r. repeat split.
    exact Hfault.
  - destruct (publish_entry_healthy topic_prefix name reg w Hfault)
      as (w1 & Hentry & Hserial & Hpublished).
    assert (Hfault1 : fault (serial w1) = None) by (rewrite Hserial; reflexivity).
    destruct (IH w1 Hfault1) as (w' & Hrest & Hfault' & Hsent & Hpub).
    exists w'. cbn [publish_map]. rewrite Hentry.
    split; [exact Hrest |]. split; [exact Hfault' |].
    split.
    + rewrite Hsent, Hserial. cbn [map snd sensor_on sent].
      rewrite <- app_assoc. reflexivity.
    + rewrite (polled_cons topic_prefix name reg rest (serial w)).
      rewrite Hpub, Hpublished, Hserial, <- app_assoc. reflexivity.
Qed.

Lemma publish_map_polls_every_register_witness :
  fault (serial (fresh_world pump_all_on)) = None
  /\ exists w',
      publish_map SENSOR_MAP read_sensor "sensor" (fresh_world pump_all_on) = (Ok tt, w')
      /\ sent (serial w')
         = map (fun entry => read_frame READ_SYSTEM_REGISTER entry.2) SENSOR_MAP
      /\ filter is_publish (events w')
         = map (fun entry =>
                  MqttPublish ("rego600/sensor/" +:+ replace_spaces entry.1) (PInt 1) true)
               SENSOR_MAP.
Proof.
  split; [reflexivity |].
  destruct (publish_map_polls_every_register SENSOR_MAP "sensor" (fresh_world pump_all_on)
              eq_refl) as (w' & Hrun & _ & Hsent & Hpub).
  exists w'. split; [exact Hrun |]. split; [exact Hsent | exact Hpub].
Defined.

(** ** The display loop *)

Lemma read_display_line_at_rest (row_addr : Z) (w : World) :
  at_rest (serial w) ->
  exists w',
    read_display_line row_addr w = (Ok (row_text (pump (serial w)) row_addr), w')
    /\ at_rest (serial w')
    /\ pump (serial w') = pump (serial w)
    /\ sent (serial w') = sent (serial w) ++ [read_frame READ_DISPLAY row_addr]
    /\ filter is_publish (events w') = filter is_publish (events w).
Proof.
  intros (Hfault & Hinbound & Hshort).
  unfold read_display_line, read_register, bind at 1.
  rewrite (read_exchange_ok READ_DISPLAY row_addr 42 w Hfault) by wire_byte.
  set (frame := read_frame READ_DISPLAY row_addr).
  assert (Hresponse : response_to frame 42 w = pump (serial w) frame).
  { unfold response_to. rewrite Hinbound. cbn [app].
    apply take_ge. apply Hshort. }
  assert (Hafter : serial (after_exchange frame 42 w)
                   = {| fault := None; sent := sent (serial w) ++ [frame];
                        inbound := []; pump := pump (serial w) |}).
  { unfold after_exchange. cbn [serial]. rewrite Hinbound. cbn [app].
    rewrite drop_ge by apply Hshort. reflexivity. }
  assert (Hevents : events (after_exchange frame 42 w)
                    = events w ++ [LockAcquire; LockRelease]) by reflexivity.
  assert (Hrest : forall (value : option string) (extra : list event),
             forallb (fun e => negb (is_publish e)) extra = true ->
             exists w',
               (Ok value,
                {| serial := serial (after_exchange frame 42 w);
                   events := events (after_exchange frame 42 w) ++ extra |})
               = (Ok value, w')
               /\ at_rest (serial w')
               /\ pump (serial w') = pump (serial w)
               /\ sent (serial w') = sent (serial w) ++ [frame]
               /\ filter is_publish (events w') = filter is_publish (events w)).
  { intros value extra Hquiet. eexists. split; [reflexivity |].
    cbn [serial events]. rewrite Hafter, Hevents. cbn [pump sent].
    repeat split; try exact Hshort.
    rewrite (filter_publish_app _ _ Hquiet). apply filter_publish_app. reflexivity. }
  rewrite Hresponse. unfold row_text. fold frame.
  set (w1 := after_exchange frame 42 w) in *.
  destruct (Nat.eqb_spec (length (pump (serial w) frame)) 42) as [Hlen | Hlen];
    cbn [negb].
  2: { rewrite (decode_display_response_length _ Hlen).
       unfold bind, logging, emit, ret.
       apply (Hrest None [Log WARNING _]). reflexivity. }
  destruct (pump (serial w) frame) as [| r0 rest] eqn:Hpump; [discriminate Hlen |].
  rewrite (bind_ok _ _ w1 r0 w1) by reflexivity.
  destruct (Z.eqb_spec r0 PC_ADDRESS) as [-> | Haddr]; cbn [negb].
  2: { rewrite (decode_display_response_address (r0 :: rest) Hlen)
         by (cbn; congruence).
       unfold bind, logging, emit, ret.
       apply (Hrest None [Log WARNING _]). reflexivity. }
  rewrite (bind_ok _ _ w1 false w1) by reflexivity.
  unfold try_except, bind at 1, lift at 1.
  rewrite (decode_display_response_text (PC_ADDRESS :: rest) Hlen eq_refl).
  unfold ret. destruct (Hrest (Some (strip (display_text (PC_ADDRESS :: rest)))) [])
    as (w' & Heq & Hw'); [reflexivity |].
  exists w'. split; [| exact Hw'].
  rewrite <- Heq. rewrite app_nil_r. destruct w1; reflexivity.
Qed.

(** A pass over rows on a port at rest. *)
Lemma display_rows_at_rest (rows : list (string * Z)) :
  forall (last_display : gmap string string) (w : World),
    at_rest (serial w) ->
    exists w',
      display_rows rows last_display w
      = (Ok tt, refreshed (row_text (pump (serial w))) rows last_display, w')
      /\ at_rest (serial w')
      /\ pump (serial w') = pump (serial w)
      /\ sent (serial w')
         = sent (serial w) ++ map (fun row => read_frame READ_DISPLAY row.2) rows
      /\ filter is_publish (events w')
         = filter is_publish (events w)
           ++ changed_rows (row_text (pump (serial w))) rows last_display.
Proof.
  induction rows as [| [row_name row_addr] rest IH]; intros last_display w Hrest.
  - exists w. cbn [display_rows refreshed map changed_rows]. rewrite !app_nil_r.
    repeat split; apply Hrest.
  - destruct (read_display_line_at_rest row_addr w Hrest)
      as (w1 & Hread & Hrest1 & Hpump1 & Hsent1 & Hpub1).
    cbn [display_rows refreshed changed_rows map snd]. rewrite Hread.
    destruct (row_text (pump (serial w)) row_addr) as [text |].
    + destruct (bool_decide (last_display !! row_name = Some text)) eqn:Hsame.
      * apply bool_decide_eq_true in Hsame.
        rewrite (insert_id last_display row_name text Hsame).
        destruct (IH last_display w1 Hrest1) as (w' & Hrun & Hr & Hp & Hs & Hpub).
        exists w'. rewrite Hpump1 in Hrun, Hp, Hpub.
        split; [exact Hrun |]. split; [exact Hr |]. split; [exact Hp |].
        split.
        -- rewrite Hs, Hsent1, <- app_assoc. reflexivity.
        -- rewrite Hpub, Hpub1. reflexivity.
      * set (w2 := {| serial := serial w1;
                      events := (events w1
                                 ++ [MqttPublish (MQTT_TOPIC_PREFIX +:+ "/"
                                                  +:+ "display/" +:+ replace_spaces row_name)
                                       (PStr text) true])
                                ++ [Log DEBUG ("Display changed: " +:+ row_name
                                               +:+ " = " +:+ text)] |}).
        assert (Hstep : (mqtt_publish ("display/" +:+ replace_spaces row_name) (PStr text) ;;
                         logging DEBUG ("Display changed: " +:+ row_name +:+ " = " +:+ text))
                          w1 = (Ok tt, w2)) by reflexivity.
        rewrite Hstep.
        assert (Hrest2 : at_rest (serial w2)) by exact Hrest1.
        destruct (IH (<[row_name := text]> last_display) w2 Hrest2)
          as (w' & Hrun & Hr & Hp & Hs & Hpub).
        exists w'. cbn [serial w2] in Hrun, Hp, Hs, Hpub.
        rewrite Hpump1 in Hrun, Hp, Hpub.
        split; [exact Hrun |]. split; [exact Hr |]. split; [exact Hp |].
        split.
        -- rewrite Hs, Hsent1, <- app_assoc. reflexivity.
        -- rewrite Hpub. cbn [events w2].
           rewrite (filter_publish_app _ [Log DEBUG _]) by reflexivity.
           rewrite filter_app, Hpub1, <- app_assoc. reflexivity.
    + destruct (IH last_display w1 Hrest1) as (w' & Hrun & Hr & Hp & Hs & Hpub).
      exists w'. rewrite Hpump1 in Hrun, Hp, Hpub.
      split; [exact Hrun |]. split; [exact Hr |]. split; [exact Hp |].
      split.
      * rewrite Hs, Hsent1, <- app_assoc. reflexivity.
      * rewrite Hpub, Hpub1. reflexivity.
Qed.

Lemma refreshed_lookup_other (shows : Z -> option string) (rows : list (string * Z)) :
  forall (last_display : gmap string string) (row_name : string),
    row_name ∉ map fst rows ->
    refreshed shows rows last_display !! row_name = last_display !! row_name.
Proof.
  induction rows as [| [name addr] rest IH]; intros last_display row_name Hout;
    [reflexivity |].
  cbn [map fst] in Hout. apply not_elem_of_cons in Hout as [Hne Hout].
  cbn [refreshed]. destruct (shows addr) as [text |].
  - rewrite (IH _ _ Hout). apply lookup_insert_ne. congruence.
  - apply IH, Hout.
Qed.

Lemma refreshed_lookup_row (shows : Z -> option string) (rows : list (string * Z)) :
  forall (last_display : gmap string string) (row_name : string) (row_addr : Z)
         (text : string),
    NoDup (map fst rows) ->
    (row_name, row_addr) ∈ rows ->
    shows row_addr = Some text ->
    refreshed shows rows last_display !! row_name = Some text.
Proof.
  induction rows as [| [name addr] rest IH];
    intros last_display row_name row_addr text Hnodup Hin Hshows.
  - apply elem_of_nil in Hin. contradiction.
  - cbn [map fst] in Hnodup. apply NoDup_cons in Hnodup as [Hfresh Hnodup].
    cbn [refreshed].
    apply elem_of_cons in Hin as [Heq | Hin].
    + injection Heq as -> ->. rewrite Hshows.
      rewrite (refreshed_lookup_other _ _ _ _ Hfresh). apply lookup_insert_eq.
    + destruct (shows addr); apply (IH _ _ row_addr); assumption.
Qed.

Lemma nothing_changed (shows : Z -> option string) (rows : list (string * Z))
  (last_display : gmap string string) :
  (forall row_name row_addr text,
      (row_name, row_addr) ∈ rows -> shows row_addr = Some text ->
      last_display !! row_name = Some text) ->
  refreshed shows rows last_display = last_display
  /\ changed_rows shows rows last_display = [].
Proof.
  induction rows as [| [name addr] rest IH]; intros Hsame; [split; reflexivity |].
  assert (Hrest : forall row_name row_addr text,
             (row_name, row_addr) ∈ rest -> shows row_addr = Some text ->
             last_display !! row_name = Some text).
  { intros row_name row_addr text Hin. apply Hsame. apply list_elem_of_further, Hin. }
  cbn [refreshed changed_rows].
  destruct (shows addr) as [text |] eqn:Hshows; [| apply IH, Hrest].
  pose proof (Hsame name addr text (list_elem_of_here _ _) Hshows) as Hhere.
  rewrite (insert_id last_display name text Hhere).
  rewrite (bool_decide_eq_true_2 _ Hhere). apply IH, Hrest.
Qed.

Lemma display_monitor_pass_at_rest (rows : list (string * Z))
  (last_display : gmap string string) (w : World) :
  at_rest (serial w) ->
  exists w',
    display_monitor_pass rows last_display w
    = (Ok tt, refreshed (row_text (pump (serial w))) rows last_display, w')
    /\ at_rest (serial w')
    /\ pump (serial w') = pump (serial w)
    /\ sent (serial w')
       = sent (serial w) ++ map (fun row => read_frame READ_DISPLAY row.2) rows
    /\ filter is_publish (events w')
       = filter is_publish (events w)
         ++ changed_rows (row_text (pump (serial w))) rows last_display.
Proof.
  intros Hrest.
  destruct (display_rows_at_rest rows last_display w Hrest) as (w' & Hrun & Hw').
  exists w'. unfold display_monitor_pass. rewrite Hrun. split; [reflexivity | exact Hw'].
Qed.

(** X15: a pass of the display loop over rows with distinct names, on a
    port at rest, ends normally, and after it the cache holds for every
    row whose bytes the decoder accepts the text the decoder returns for
    them; a row that could not be read, and every other key of the cache,
    keeps what it had.  Every row was polled once, in order. *)
Theorem display_cache_follows_display (rows : list (string * Z))
  (last_display : gmap string string) (w : World) :
  NoDup (map fst rows) ->
  at_rest (serial w) ->
  let cache := snd (fst (display_monitor_pass rows last_display w)) in
  let w' := snd (display_monitor_pass rows last_display w) in
  fst (fst (display_monitor_pass rows last_display w)) = Ok tt
  /\ (forall row_name row_addr text,
      (row_name, row_addr) ∈ rows ->
      row_text (pump (serial w)) row_addr = Some text ->
      cache !! row_name = Some text)
  /\ (forall row_name row_addr,
         (row_name, row_addr) ∈ rows ->
         row_text (pump (serial w)) row_addr = None ->
         cache !! row_name = last_display !! row_name)
  /\ (forall key, key ∉ map fst rows -> cache !! key = last_display !! key)
  /\ sent (serial w')
     = sent (serial w) ++ map (fun row => read_frame READ_DISPLAY row.2) rows.
Proof.
  intros Hnodup Hrest cache w'.
  destruct (display_monitor_pass_at_rest rows last_display w Hrest)
    as (w1 & Hrun & _ & _ & Hsent & _).
  subst cache w'. rewrite Hrun. cbn [fst snd].
  split; [reflexivity |].
  split; [| split; [| split]].
  - intros row_name row_addr text. apply refreshed_lookup_row, Hnodup.
  - clear Hrun Hsent. revert last_display.
    induction rows as [| [name addr] rest IH];
      intros last_display row_name row_addr Hin Hnone.
    + apply elem_of_nil in Hin. contradiction.
    + cbn [map fst] in Hnodup. apply NoDup_cons in Hnodup as [Hfresh Hnodup].
      cbn [refreshed]. apply elem_of_cons in Hin as [Heq | Hin].
      * injection Heq as -> ->. rewrite Hnone.
        apply refreshed_lookup_other, Hfresh.
      * assert (Hne : name <> row_name).
        { intros ->. apply Hfresh. apply list_elem_of_fmap.
          exists (row_name, row_addr). split; [reflexivity | exact Hin]. }
        destruct (row_text (pump (serial w)) addr) as [text |].
        -- rewrite (IH Hnodup _ _ _ Hin Hnone). apply lookup_insert_ne, Hne.
        -- apply (IH Hnodup _ _ _ Hin Hnone).
  - intros key. apply refreshed_lookup_other.
  - exact Hsent.
Qed.

(** X16: the display is published on change only.  On a port at rest, a
    second pass over the same rows (distinct names) with the cache the
    first pass left publishes nothing and leaves the cache as it is, while
    it still polls every row. *)
Theorem display_unchanged_not_republished (rows : list (string * Z))
  (last_display : gmap string string) (w : World) :
  NoDup (map fst rows) ->
  at_rest (serial w) ->
  let first := display_monitor_pass rows last_display w in
  let second := display_monitor_pass rows (snd (fst first)) (snd first) in
  fst (fst second) = Ok tt
  /\ snd (fst second) = snd (fst first)
  /\ filter is_publish (events (snd second)) = filter is_publish (events (snd first))
  /\ sent (serial (snd second))
     = sent (serial (snd first)) ++ map (fun row => read_frame READ_DISPLAY row.2) rows.
Proof.
  intros Hnodup Hrest first second.
  destruct (display_monitor_pass_at_rest rows last_display w Hrest)
    as (w1 & Hrun1 & Hrest1 & Hpump1 & _ & _).
  subst second first. rewrite Hrun1. cbn [fst snd].
  destruct (display_monitor_pass_at_rest rows
              (refreshed (row_text (pump (serial w))) rows last_display) w1 Hrest1)
    as (w2 & Hrun2 & _ & _ & Hsent2 & Hpub2).
  rewrite Hrun2. cbn [fst snd]. rewrite Hpump1 in Hpub2 |- *.
  destruct (nothing_changed (row_text (pump (serial w))) rows
              (refreshed (row_text (pump (serial w))) rows last_display))
    as [Hcache Hnone].
  { intros row_name row_addr text. apply refreshed_lookup_row, Hnodup. }
  rewrite Hcache. rewrite Hnone, app_nil_r in Hpub2.
  split; [reflexivity |]. split; [reflexivity |]. split; [exact Hpub2 | exact Hsent2].
Qed.

(** X17: on a failed port a pass of the display loop ends at its first
    row: the [SerialException] is caught by the loop, logged as an error,
    nothing is published and the cache is left as it was. *)
Theorem display_monitor_pass_failed_port (row_name : string) (row_addr : Z)
  (rest : list (string * Z)) (last_display : gmap string string) (w : World)
  (msg : string) :
  fault (serial w) = Some msg ->
  display_monitor_pass ((row_name, row_addr) :: rest) last_display w
  = (Ok tt, last_display,
     {| serial := serial w;
        events := events w
                  ++ [LockAcquire; LockRelease;
                      Log ERROR ("Display serial error: " +:+ msg)] |}).
Proof.
  intros Hfault. unfold display_monitor_pass. cbn [display_rows].
  unfold read_display_line, read_register, bind at 1.
  rewrite (read_exchange_fault READ_DISPLAY row_addr 42 w msg Hfault) by wire_byte.
  cbn [is_SerialException]. unfold logging, emit.
  cbn [snd serial events exn_str]. rewrite <- app_assoc. reflexivity.
Qed.

Lemma display_rows_distinct : NoDup (map fst DISPLAY_ROWS).
Proof. apply (bool_decide_unpack _). vm_compute. exact I. Qed.

Lemma pump_display_at_rest (codes : list Z) :
  (length (display_response codes) <= 42)%nat ->
  at_rest (serial (fresh_world (pump_display codes))).
Proof.
  intros Hshort. split; [reflexivity |]. split; [reflexivity |].
  intros frame. exact Hshort.
Qed.

Lemma display_cache_follows_display_witness :
  NoDup (map fst DISPLAY_ROWS)
  /\ at_rest (serial (fresh_world (pump_display (cells "  +21.5"))))
  /\ ("Row 3", 0x0002)%string ∈ DISPLAY_ROWS
  /\ row_text (pump_display (cells "  +21.5")) 0x0002
     = Some ("+21.5" +:+ copies 13 private_use_F0A2)
  /\ snd (fst (display_monitor_pass DISPLAY_ROWS ∅
                 (fresh_world (pump_display (cells "  +21.5")))))
     !! "Row 3"%string = Some ("+21.5" +:+ copies 13 private_use_F0A2).
Proof.
  assert (Hrest : at_rest (serial (fresh_world (pump_display (cells "  +21.5")))))
    by (apply pump_display_at_rest; vm_compute; lia).
  assert (Hin : ("Row 3", 0x0002)%string ∈ DISPLAY_ROWS)
    by (do 2 apply list_elem_of_further; apply list_elem_of_here).
  assert (Htext : row_text (pump_display (cells "  +21.5")) 0x0002
                  = Some ("+21.5" +:+ copies 13 private_use_F0A2))
    by (vm_compute; reflexivity).
  split; [exact display_rows_distinct |]. split; [exact Hrest |].
  split; [exact Hin |]. split; [exact Htext |].
  exact (proj1 (proj2 (display_cache_follows_display DISPLAY_ROWS ∅
                         (fresh_world (pump_display (cells "  +21.5")))
                         display_rows_distinct Hrest))
           "Row 3"%string 0x0002 ("+21.5" +:+ copies 13 private_use_F0A2) Hin Htext).
Defined.

Lemma display_unchanged_not_republished_witness :
  NoDup (map fst DISPLAY_ROWS)
  /\ at_rest (serial (fresh_world (pump_display (cells "  +21.5"))))
  /\ filter is_publish
       (events (snd (display_monitor_pass DISPLAY_ROWS ∅
                       (fresh_world (pump_display (cells "  +21.5"))))))
     = map (fun row =>
              MqttPublish ("rego600/display/" +:+ row)
                (PStr ("+21.5" +:+ copies 13 private_use_F0A2)) true)
           ["Row_1"; "Row_2"; "Row_3"; "Row_4"]%string
  /\ (let first := display_monitor_pass DISPLAY_ROWS ∅
                     (fresh_world (pump_display (cells "  +21.5"))) in
      let second := display_monitor_pass DISPLAY_ROWS (snd (fst first)) (snd first) in
      filter is_publish (events (snd second)) = filter is_publish (events (snd first))).
Proof.
  assert (Hrest : at_rest (serial (fresh_world (pump_display (cells "  +21.5")))))
    by (apply pump_display_at_rest; vm_compute; lia).
  split; [exact display_rows_distinct |]. split; [exact Hrest |].
  split; [vm_compute; reflexivity |].
  exact (proj1 (proj2 (proj2 (display_unchanged_not_republished DISPLAY_ROWS ∅
                                (fresh_world (pump_display (cells "  +21.5")))
                                display_rows_distinct Hrest)))).
Defined.

Lemma display_monitor_pass_failed_port_witness :
  fault (serial (failed_world "device disconnected")) = Some "device disconnected"%string
  /\ display_monitor_pass DISPLAY_ROWS ∅ (failed_world "device disconnected")
     = (Ok tt, ∅,
        {| serial := serial (failed_world "device disconnected");
           events := [LockAcquire; LockRelease;
                      Log ERROR "Display serial error: device disconnected"] |}).
Proof.
  split; [reflexivity |].
  exact (display_monitor_pass_failed_port "Row 1" 0x0000 (tl DISPLAY_ROWS) ∅
           (failed_world "device disconnected") "device disconnected" eq_refl).
Defined.

(** ** The shape of a decoded display row *)

(** A character followed by a text that begins a character is the first
    character of the whole. *)
Lemma chars_group (tail : string) :
  forall (b : ascii) (s : string),
    all_continuation tail = true ->
    match chars s with
    | c :: _ => continuation c = false
    | [] => True
    end ->
    chars (String b tail +:+ s) = String b tail :: chars s.
Proof.
  induction tail as [| t tail IH]; intros b s Htail Hs.
  - change (String b EmptyString +:+ s) with (String b s). cbn [chars].
    destruct (chars s) as [| c cs]; [reflexivity |]. rewrite Hs. reflexivity.
  - cbn [all_continuation] in Htail. apply andb_prop in Htail as [Ht Htail].
    change (String b (String t tail) +:+ s) with (String b (String t tail +:+ s)).
    cbn [chars]. fold chars. rewrite (IH t s Htail Hs). rewrite Ht. reflexivity.
Qed.

Lemma one_char_begins (c : string) : one_char c = true -> continuation c = false.
Proof.
  destruct c as [| b tail]; [discriminate |].
  unfold one_char. intros H. apply andb_prop in H as [H _].
  apply negb_true_iff in H. exact H.
Qed.

(** Joining characters and splitting the text again gives them back. *)
Lemma chars_join (cs : list string) :
  Forall (fun c => one_char c = true) cs -> chars (join cs) = cs.
Proof.
  induction cs as [| c cs IH]; intros Hall; [reflexivity |].
  apply Forall_cons in Hall as [Hc Hall]. specialize (IH Hall).
  cbn [join fold_right]. fold (join cs).
  destruct c as [| b tail]; [discriminate Hc |].
  unfold one_char in Hc. apply andb_prop in Hc as [_ Htail].
  rewrite (chars_group tail b (join cs) Htail).
  - rewrite IH. reflexivity.
  - rewrite IH. destruct cs as [| c' cs']; [exact I |].
    apply Forall_cons in Hall as [Hc' _]. apply one_char_begins, Hc'.
Qed.

Lemma glyph_shape (code : Z) :
  0 <= code < 256 -> one_char (glyph code) = true /\ shown_char (glyph code).
Proof.
  intros Hcode.
  assert (Hall : List.forallb
                   (fun n => one_char (glyph (Z.of_nat n))
                             && negb (String.eqb (glyph (Z.of_nat n)) "ÿ")
                             && negb (String.eqb (glyph (Z.of_nat n)) "ß"))
                   (seq 0 256) = true) by (vm_compute; reflexivity).
  rewrite List.forallb_forall in Hall.
  specialize (Hall (Z.to_nat code)). rewrite Z2Nat.id in Hall by lia.
  assert (Hin : In (Z.to_nat code) (seq 0 256)) by (apply in_seq; lia).
  apply Hall in Hin. apply andb_prop in Hin as [Hin Hsharp].
  apply andb_prop in Hin as [Hone Hfiller].
  split; [exact Hone |]. split; [exists code; split; [exact Hcode | reflexivity] |].
  split.
  - apply String.eqb_neq, negb_true_iff, Hfiller.
  - apply String.eqb_neq, negb_true_iff, Hsharp.
Qed.

Lemma pair_glyphs_shape (body : list Z) :
  ((2 * length (pair_glyphs body) <= length body)%nat
   /\ Forall (fun c => one_char c = true) (pair_glyphs body)
   /\ Forall shown_char (pair_glyphs body))
  /\ forall b,
      (2 * length (pair_glyphs (b :: body)) <= S (length body))%nat
      /\ Forall (fun c => one_char c = true) (pair_glyphs (b :: body))
      /\ Forall shown_char (pair_glyphs (b :: body)).
Proof.
  induction body as [| low body [(Hlen & Hone & Hshown) Hodd]].
  - split; [split; [cbn; lia | split; apply Forall_nil_2] |].
    intros b. split; [cbn; lia | split; apply Forall_nil_2].
  - split; [apply Hodd |].
    intros high. cbn [pair_glyphs length].
    destruct (glyph_shape (pair_code high low) (pair_code_range high low))
      as [Hgone Hgshown].
    split; [lia |]. split; apply Forall_cons; split; assumption.
Qed.

(** [lstrip_chars] drops a prefix and leaves no whitespace in front. *)
Lemma lstrip_chars_shape (cs : list string) :
  (exists dropped, cs = dropped ++ lstrip_chars cs)
  /\ (forall c, head (lstrip_chars cs) = Some c -> isspace c = false).
Proof.
  induction cs as [| c cs [[dropped Hdropped] Hhead]].
  - split; [exists []; reflexivity | intros c Hc; discriminate Hc].
  - cbn [lstrip_chars]. destruct (isspace c) eqn:Hspace.
    + split; [| exact Hhead].
      exists (c :: dropped). cbn [app]. f_equal. exact Hdropped.
    + split; [exists []; reflexivity |].
      intros c' [= <-]. exact Hspace.
Qed.

(** [rstrip_chars] drops a suffix and leaves no whitespace at the end. *)
Lemma rstrip_chars_shape (cs : list string) :
  (exists dropped, cs = rstrip_chars cs ++ dropped)
  /\ (forall c, last (rstrip_chars cs) = Some c -> isspace c = false).
Proof.
  unfold rstrip_chars.
  destruct (lstrip_chars_shape (rev cs)) as [[dropped Hdropped] Hhead].
  split.
  - exists (rev dropped).
    rewrite <- rev_app_distr, <- Hdropped, rev_involutive. reflexivity.
  - destruct (lstrip_chars (rev cs)) as [| c0 rest]; [intros c Hc; discriminate Hc |].
    intros c Hc. cbn [rev] in Hc. rewrite last_snoc in Hc.
    injection Hc as <-. apply Hhead. reflexivity.
Qed.

(** The characters of a stripped row: a run of its glyphs that neither
    starts nor ends with whitespace. *)
Lemma strip_glyphs (glyphs : list string) :
  Forall (fun c => one_char c = true) glyphs ->
  let kept := rstrip_chars (lstrip_chars glyphs) in
  chars (strip (join glyphs)) = kept
  /\ (exists before after, glyphs = before ++ kept ++ after)
  /\ (forall c, head kept = Some c -> isspace c = false)
  /\ (forall c, last kept = Some c -> isspace c = false).
Proof.
  intros Hone kept.
  destruct (lstrip_chars_shape glyphs) as [[before Hbefore] Hhead].
  destruct (rstrip_chars_shape (lstrip_chars glyphs)) as [[after Hafter] Hlast].
  fold kept in Hafter, Hlast.
  assert (Hrun : glyphs = before ++ kept ++ after).
  { rewrite Hbefore at 1. rewrite Hafter at 1. reflexivity. }
  assert (Hkept : Forall (fun c => one_char c = true) kept).
  { rewrite Hrun in Hone. apply Forall_app in Hone as [_ Hone].
    apply Forall_app in Hone as [Hone _]. exact Hone. }
  split.
  - unfold strip. rewrite (chars_join glyphs Hone). fold kept.
    apply chars_join, Hkept.
  - split; [exists before, after; exact Hrun |].
    split; [| exact Hlast].
    intros c Hc. apply Hhead. rewrite Hafter.
    destruct kept as [| c0 rest]; [discriminate Hc | exact Hc].
Qed.

Lemma decode_display_response_chars (data : list Z) (text : string) :
  decode_display_response data = Ok text ->
  (length (chars text) <= 20)%nat
  /\ Forall shown_char (chars text)
  /\ (forall c, head (chars text) = Some c -> isspace c = false)
  /\ (forall c, last (chars text) = Some c -> isspace c = false).
Proof.
  intros Hdecode.
  destruct (Nat.eq_dec (length data) 42%nat) as [Hlen | Hlen].
  2: { rewrite (decode_display_response_length data Hlen) in Hdecode.
       discriminate Hdecode. }
  destruct (decide (data !! 0%nat = Some PC_ADDRESS)) as [Hhead | Hhead].
  2: { rewrite (decode_display_response_address data Hlen Hhead) in Hdecode.
       discriminate Hdecode. }
  rewrite (decode_display_response_text data Hlen Hhead) in Hdecode.
  injection Hdecode as <-. unfold display_text.
  destruct (pair_glyphs_shape (slice 1 41 data)) as [(Hglen & Hone & Hshown) _].
  assert (Hbody : (length (slice 1 41 data) <= 40)%nat).
  { unfold slice. rewrite length_take. lia. }
  destruct (strip_glyphs (pair_glyphs (slice 1 41 data)) Hone)
    as (-> & (before & after & Hrun) & Hfirst & Hlast).
  split.
  - apply (f_equal (@length string)) in Hrun. rewrite !length_app in Hrun. lia.
  - split; [| split; [exact Hfirst | exact Hlast]].
    rewrite Hrun in Hshown. apply Forall_app in Hshown as [_ Hshown].
    apply Forall_app in Hshown as [Hshown _]. exact Hshown.
Qed.

(** X18: what [decode_display_response] returns and when it refuses.  A
    response that does not have 42 bytes, or whose first byte is not the
    echo address, raises [ValueError].  A text it returns has at most 20
    characters, each the glyph of a character code and none of them
    U+00FF or U+00DF, and it neither starts nor ends with whitespace. *)
Theorem decode_display_response_shape :
  (forall data : list Z,
      length data <> 42%nat ->
      decode_display_response data
      = Raise (ValueError "Invalid display response length"))
  /\ (forall data : list Z,
         length data = 42%nat ->
         data !! 0%nat <> Some PC_ADDRESS ->
         decode_display_response data
         = Raise (ValueError "Unexpected display response address"))
  /\ (forall (data : list Z) (text : string),
         decode_display_response data = Ok text ->
         (length (chars text) <= 20)%nat
         /\ Forall shown_char (chars text)
         /\ (forall c, head (chars text) = Some c -> isspace c = false)
         /\ (forall c, last (chars text) = Some c -> isspace c = false)).
Proof.
  split; [exact decode_display_response_length |].
  split; [exact decode_display_response_address |].
  exact decode_display_response_chars.
Qed.

Lemma decode_display_response_shape_witness :
  decode_display_response (display_response [0x20; 0x34; 0x35; 0xDF; 0x20])
  = Ok ("45° " +:+ copies 15 private_use_F0A2)
  /\ length (chars ("45° " +:+ copies 15 private_use_F0A2)) = 19%nat
  /\ Forall shown_char (chars ("45° " +:+ copies 15 private_use_F0A2)).
Proof.
  assert (Hdecode : decode_display_response
                      (display_response [0x20; 0x34; 0x35; 0xDF; 0x20])
                    = Ok ("45° " +:+ copies 15 private_use_F0A2))
    by (vm_compute; reflexivity).
  split; [exact Hdecode |]. split; [vm_compute; reflexivity |].
  exact (proj1 (proj2 (proj2 (proj2 decode_display_response_shape)
                         (display_response [0x20; 0x34; 0x35; 0xDF; 0x20])
                         ("45° " +:+ copies 15 private_use_F0A2) Hdecode))).
Defined.

(** ** Commands while the port is down *)

Lemma write_setting_failed (reg_addr value : Z) (w : World) (msg : string) :
  fault (serial w) = Some msg ->
  write_setting reg_addr value w = (Raise (SerialException msg), after_failed_exchange w).
Proof.
  intros Hfault.
  destruct (write_frame_bytes WRITE_SYSTEM_REGISTER reg_addr value) as [Hb _];
    [wire_byte |].
  unfold write_setting, bind at 1.
  fold (frame_of PUMP_ADDRESS WRITE_SYSTEM_REGISTER
          (encode_register reg_addr) (encode_register value)).
  rewrite (failed_exchange _ 1 w msg Hfault Hb). reflexivity.
Qed.

Lemma dispatch_setting_failed (key reg_name : string) (reg_addr payload : Z) (w : World)
  (msg : string) :
  find (fun kv => String.eqb (setting_topic key) (setting_topic kv.1)) setting_topics
  = Some (key, reg_name) ->
  dict_getitem SETTINGS_MAP reg_name = Ok reg_addr ->
  fault (serial w) = Some msg ->
  dispatch (setting_topic key) payload w
  = (Raise (SerialException msg), after_failed_exchange w).
Proof.
  intros Hfind Hreg Hfault.
  unfold dispatch. rewrite dispatch_setting_find, Hfind.
  unfold bind at 1. unfold bind at 1, lift at 1. rewrite Hreg.
  unfold bind at 1.
  rewrite (write_setting_failed reg_addr payload w msg Hfault). reflexivity.
Qed.

(** X20: a setting command that arrives while the port is failed is not
    absorbed by the handler: the [SerialException] of [write_setting]
    leaves [on_mqtt_message], nothing was sent, and no update is logged. *)
Theorem on_mqtt_message_raises_on_failed_port
  (payload_decode : list Z -> result string) (int_of_str : string -> result Z)
  (key reg_name : string) (msg_payload : list Z) (payload_raw : string) (payload : Z)
  (w : World) (msg : string) :
  (key, reg_name) ∈ setting_topics ->
  payload_decode msg_payload = Ok payload_raw ->
  int_of_str payload_raw = Ok payload ->
  fault (serial w) = Some msg ->
  on_mqtt_message payload_decode int_of_str (setting_topic key) msg_payload w
  = (Raise (SerialException msg), after_failed_exchange w).
Proof.
  intros Hin Hdecode Hint Hfault.
  rewrite (on_mqtt_message_parsed _ _ _ _ _ _ w Hdecode Hint).
  unfold setting_topics in Hin.
  repeat (apply elem_of_cons in Hin as [Heq | Hin];
          [ injection Heq as -> ->;
            eapply dispatch_setting_failed;
            [vm_compute; reflexivity | reflexivity | exact Hfault] |]).
  apply elem_of_nil in Hin. contradiction.
Qed.

Lemma on_mqtt_message_raises_on_failed_port_witness :
  ("heat_curve", "Heat curve")%string ∈ setting_topics
  /\ Builtins.utf8_decode (Builtins.bytes_of_text "35") = Ok "35"%string
  /\ Builtins.int_literal "35" = Ok 35
  /\ fault (serial (failed_world "device disconnected")) = Some "device disconnected"%string
  /\ on_mqtt_message Builtins.utf8_decode Builtins.int_literal
       (setting_topic "heat_curve") (Builtins.bytes_of_text "35")
       (failed_world "device disconnected")
     = (Raise (SerialException "device disconnected"),
        after_failed_exchange (failed_world "device disconnected")).
Proof.
  assert (Hin : ("heat_curve", "Heat curve")%string ∈ setting_topics)
    by (apply list_elem_of_further; apply list_elem_of_here).
  split; [exact Hin |]. split; [reflexivity |]. split; [reflexivity |].
  split; [reflexivity |].
  exact (on_mqtt_message_raises_on_failed_port
           Builtins.utf8_decode Builtins.int_literal "heat_curve" "Heat curve"
           (Builtins.bytes_of_text "35") "35" 35
           (failed_world "device disconnected") "device disconnected"
           Hin eq_refl eq_refl eq_refl).
Defined.
